(** * Cloudflare Vectorize client utilities: a shallow embedding

    This development embeds [utils/CloudflareVectorizeUtils.ts] (the static
    methods of the class [CloudflareVectorizeUtils]) and proves properties of
    its validators, its formatter and batcher, and its request executor.

    The methods work on loosely typed JavaScript data, so the embedding starts
    with the fragment of JavaScript they rely on: JSON-like values, property
    reads, truthiness, [typeof], string coercion and the relational operators.
    Numbers in data are IEEE-754 doubles (Rocq's primitive floats).  Numbers
    the code uses as counts (batch sizes, expected dimensions, item indexes,
    array positions) are unbounded integers; the doubles of the code agree
    with them on every safe integer, and a count is printed as the double it
    is.  Strings are sequences of code units, here the code units below 256.

    Two functions the code relies on are not its own and are parameters of
    the embedding: the engine's conversion of a string to a number, and the
    message that n8n-workflow's constructor of [NodeOperationError] gives the
    error it builds from a text. *)

From Stdlib Require Import String Ascii List ZArith Bool Lia DecimalString.
From Stdlib Require Import Floats.PrimFloat Floats.FloatOps Floats.SpecFloat.
From Stdlib Require Import Numbers.Cyclic.Int63.Uint63.
Import ListNotations.

Open Scope bool_scope.
Open Scope list_scope.
Open Scope string_scope.

Set Warnings "-register-all,-inexact-float".

(** ** JavaScript values *)

(** The values that reach the utilities: what [JSON.parse] produces, plus
    [undefined] and the two typed arrays the validators test with
    [instanceof].  An object is its own enumerable properties in the order
    in which they are enumerated, each key once. *)
Inductive JsValue : Type :=
| JUndefined
| JNull
| JBool (b : bool)
| JNum (x : float)
| JStr (s : string)
| JArr (elems : list JsValue)
| JFloat32Array (elems : list float)
| JFloat64Array (elems : list float)
| JObj (props : list (string * JsValue)).

(** n8n's node descriptor, returned by [context.getNode()]; only passed on. *)
Definition INode : Type := string.

(** What a [throw] can carry here: an [Error] made by the utilities, a
    [TypeError] raised by the engine, n8n's [NodeOperationError], or any other
    value thrown by the HTTP helper. *)
Inductive JsError : Type :=
| Error (message : string)
| TypeError (message : string)
| NodeOperationError (node : INode) (message : string) (itemIndex : Z)
| Thrown (value : JsValue).

(** A synchronous computation either throws or returns. *)
Definition Result (A : Type) : Type := (JsError + A)%type.

Definition ret {A : Type} (a : A) : Result A := inr a.

Definition throw {A : Type} (e : JsError) : Result A := inl e.

Definition bind {A B : Type} (r : Result A) (k : A -> Result B) : Result B :=
  match r with
  | inl e => inl e
  | inr a => k a
  end.

Notation "x <- c1 ;; c2" := (bind c1 (fun x => c2))
  (at level 61, c1 at next level, right associativity).
Notation "c1 ;; c2" := (bind c1 (fun _ => c2))
  (at level 61, right associativity).

Definition mapM {A B : Type} (f : A -> Result B) : list A -> Result (list B) :=
  fix go (l : list A) : Result (list B) :=
    match l with
    | [] => ret []
    | a :: rest => b <- f a ;; bs <- go rest ;; ret (b :: bs)
    end.

(** [Array.prototype.map] passes the position as second argument. *)
Definition mapM_indexed {A B : Type} (f : A -> nat -> Result B)
  : nat -> list A -> Result (list B) :=
  fix go (index : nat) (l : list A) : Result (list B) :=
    match l with
    | [] => ret []
    | a :: rest => b <- f a index ;; bs <- go (S index) rest ;; ret (b :: bs)
    end.

(** ** Numbers *)

Definition decimal (z : Z) : string :=
  NilZero.string_of_uint (N.to_uint (Z.to_N z)).

(** [Number::toString] on an integer (below 10^21 in magnitude). *)
Definition IntegerToString (z : Z) : string :=
  if (z <? 0)%Z then "-" ++ decimal (- z) else decimal z.

(** The double of an array length or of another natural number. *)
Definition number_of_nat (n : nat) : float :=
  PrimFloat.of_uint63 (Uint63.of_Z (Z.of_nat n)).

(** The double of an integer: the integer itself when a double can hold it
    (up to 2^53 in magnitude, and beyond for multiples of powers of two),
    the nearest double otherwise. *)
Definition number_of_Z (z : Z) : float :=
  SF2Prim (binary_normalize prec emax z 0 false).

(** Shortest decimal digits of a positive double [m * 2^e]
    (ECMA-262, Number::toString, step 5): the least [n] for which some
    [s] of [n] digits has [s * 10^(k-n)] rounding to the double, and for that
    [n] the [s] closest to it. *)
Section ShortestDigits.
Open Scope Z_scope.
Variables (m e : Z).

Definition num_scale : Z := 2 ^ (Z.max (e - 2) 0).

Definition den : Z := 2 ^ (Z.max (2 - e) 0).

Definition at_binade_start : bool := (m =? 2 ^ 52) && (-1074 <? e).

(** The double and the two ends of its rounding interval, over [den]. *)
Definition scaled_value : Z := 4 * m * num_scale.

Definition scaled_low : Z :=
  (if at_binade_start then 4 * m - 1 else 4 * m - 2) * num_scale.

Definition scaled_high : Z := (4 * m + 2) * num_scale.

(** Compares [a / den] with [c * 10^p]. *)
Definition compare_scaled (a c p : Z) : comparison :=
  if 0 <=? p then a ?= c * 10 ^ p * den else a * 10 ^ (- p) ?= c * den.

Definition rounds_here (c p : Z) : bool :=
  match compare_scaled scaled_low c p, compare_scaled scaled_high c p with
  | Lt, Gt => true
  | Eq, Gt | Lt, Eq => Z.even m
  | _, _ => false
  end.

Definition below_power (k : Z) : bool :=
  match compare_scaled scaled_value 1 k with Lt => true | _ => false end.

(** The least [k] with [m * 2^e < 10^k]. *)
Definition magnitude : Z :=
  let k0 := ((Z.log2 m + e) * 30103) / 100000 - 1 in
  if below_power k0 then k0 else
  if below_power (k0 + 1) then k0 + 1 else
  if below_power (k0 + 2) then k0 + 2 else
  if below_power (k0 + 3) then k0 + 3 else k0 + 4.

Definition scaled_floor (p : Z) : Z :=
  if 0 <=? p then (scaled_value * 10 ^ p) / den
  else scaled_value / (den * 10 ^ (- p)).

Definition pick (n k : Z) : option Z :=
  let lo := scaled_floor (n - k) in
  let hi := lo + 1 in
  match rounds_here lo (k - n) && (10 ^ (n - 1) <=? lo), rounds_here hi (k - n) with
  | true, false => Some lo
  | false, true => Some hi
  | false, false => None
  | true, true =>
      match compare_scaled (2 * scaled_value) (lo + hi) (k - n) with
      | Lt => Some lo
      | Gt => Some hi
      | Eq => Some (if Z.even lo then lo else hi)
      end
  end.

Fixpoint shortest (fuel : nat) (n k : Z) : Z * Z * Z :=
  match pick n k with
  | Some s => if s =? 10 ^ n then (1, 1, k + 1) else (s, n, k)
  | None =>
      match fuel with
      | O => (scaled_floor (n - k), n, k)
      | S fuel' => shortest fuel' (n + 1) k
      end
  end.

End ShortestDigits.

Definition zeros (n : Z) : string :=
  string_of_list_ascii (repeat "0"%char (Z.to_nat n)).

Definition exponent_part (k : Z) : string :=
  "e" ++ (if (0 <=? k - 1)%Z then "+" else "-") ++ decimal (Z.abs (k - 1)).

(** Steps 6 to 10 of Number::toString: where the point and the exponent go. *)
Definition layout (s n k : Z) : string :=
  let ds := decimal s in
  if ((n <=? k) && (k <=? 21))%Z then ds ++ zeros (k - n)
  else if ((0 <? k) && (k <=? 21))%Z then
    substring 0 (Z.to_nat k) ds ++ "." ++ substring (Z.to_nat k) (Z.to_nat (n - k)) ds
  else if ((-6 <? k) && (k <=? 0))%Z then "0." ++ zeros (- k) ++ ds
  else if (n =? 1)%Z then ds ++ exponent_part k
  else substring 0 1 ds ++ "." ++ substring 1 (Z.to_nat (n - 1)) ds ++ exponent_part k.

Definition NumberToString (x : float) : string :=
  match Prim2SF x with
  | S754_nan => "NaN"
  | S754_zero _ => "0"
  | S754_infinity neg => if neg then "-Infinity" else "Infinity"
  | S754_finite neg m e =>
      let '(s, n, k) := shortest (Zpos m) e 17 1 (magnitude (Zpos m) e) in
      (if neg then "-" else "") ++ layout s n k
  end.

(** ** Reading values *)

(** [!v] is [negb (truthy v)]: the falsy values are [undefined], [null],
    [false], [0], [-0], [NaN] and the empty string. *)
Definition truthy (v : JsValue) : bool :=
  match v with
  | JUndefined | JNull => false
  | JBool b => b
  | JNum x => negb (PrimFloat.eqb x 0 || PrimFloat.is_nan x)
  | JStr s => negb (s =? "")
  | JArr _ | JFloat32Array _ | JFloat64Array _ | JObj _ => true
  end.

Definition typeof (v : JsValue) : string :=
  match v with
  | JUndefined => "undefined"
  | JBool _ => "boolean"
  | JNum _ => "number"
  | JStr _ => "string"
  | JNull | JArr _ | JFloat32Array _ | JFloat64Array _ | JObj _ => "object"
  end.

(** [Array.isArray(v)] *)
Definition isArray (v : JsValue) : bool :=
  match v with JArr _ => true | _ => false end.

(** [v instanceof Float32Array] *)
Definition isFloat32Array (v : JsValue) : bool :=
  match v with JFloat32Array _ => true | _ => false end.

(** [v instanceof Float64Array] *)
Definition isFloat64Array (v : JsValue) : bool :=
  match v with JFloat64Array _ => true | _ => false end.

(** [v === false] *)
Definition is_false (v : JsValue) : bool :=
  match v with JBool false => true | _ => false end.

(** [a || b] on values. *)
Definition or_else (a b : JsValue) : JsValue := if truthy a then a else b.

Fixpoint lookup (key : string) (props : list (string * JsValue)) : JsValue :=
  match props with
  | [] => JUndefined
  | (k, v) :: rest => if k =? key then v else lookup key rest
  end.

(** Writes [key] where it already stands, or after the last property. *)
Fixpoint assign (key : string) (v : JsValue) (props : list (string * JsValue))
  : list (string * JsValue) :=
  match props with
  | [] => [(key, v)]
  | (k, old) :: rest =>
      if k =? key then (k, v) :: rest else (k, old) :: assign key v rest
  end.

(** The [length] of a string, an array or a typed array. *)
Definition length_of (v : JsValue) : option nat :=
  match v with
  | JStr s => Some (String.length s)
  | JArr elems => Some (length elems)
  | JFloat32Array elems | JFloat64Array elems => Some (length elems)
  | _ => None
  end.

(** [v.key], for the property names the utilities read: own data properties
    and [length].  Reading from [undefined] or [null] raises V8's TypeError. *)
Definition read (v : JsValue) (key : string) : Result JsValue :=
  match v with
  | JUndefined =>
      throw (TypeError ("Cannot read properties of undefined (reading '" ++ key ++ "')"))
  | JNull =>
      throw (TypeError ("Cannot read properties of null (reading '" ++ key ++ "')"))
  | JObj props => ret (lookup key props)
  | _ =>
      match length_of v with
      | Some n => ret (if key =? "length" then JNum (number_of_nat n) else JUndefined)
      | None => ret JUndefined
      end
  end.

(** [v?.key] *)
Definition read_optional (v : JsValue) (key : string) : Result JsValue :=
  match v with
  | JUndefined | JNull => ret JUndefined
  | _ => read v key
  end.

Fixpoint has_key (key : string) (props : list (string * JsValue)) : bool :=
  match props with
  | [] => false
  | (k, _) :: rest => (k =? key) || has_key key rest
  end.

(** An element of [Array.prototype.join]: holes print as nothing. *)
Definition join_element (to_s : JsValue -> Result string) (v : JsValue)
  : Result string :=
  match v with
  | JUndefined | JNull => ret ""
  | _ => to_s v
  end.

(** [String(v)] and [`${v}`].  A plain object prints through
    [Object.prototype.toString]; one that shadows [toString] with data cannot
    be converted. *)
Fixpoint ToString (v : JsValue) : Result string :=
  match v with
  | JUndefined => ret "undefined"
  | JNull => ret "null"
  | JBool b => ret (if b then "true" else "false")
  | JNum x => ret (NumberToString x)
  | JStr s => ret s
  | JArr elems =>
      parts <- mapM (join_element ToString) elems ;;
      ret (String.concat "," parts)
  | JFloat32Array elems | JFloat64Array elems =>
      ret (String.concat "," (map NumberToString elems))
  | JObj props =>
      if has_key "toString" props
      then throw (TypeError "Cannot convert object to primitive value")
      else ret "[object Object]"
  end.

(** [array.join(separator)] *)
Definition join (elems : list JsValue) (separator : string) : Result string :=
  parts <- mapM (join_element ToString) elems ;;
  ret (String.concat separator parts).

(** ** Comparing with a number

    [<] and [>] convert both sides to numbers.  For a string that is the
    engine's StringToNumber (ECMA-262 7.1.4.1.1), which is taken as given. *)
Section Engine.
Variable StringToNumber : string -> float.

Definition ToNumber (v : JsValue) : Result float :=
  match v with
  | JUndefined => ret nan
  | JNull => ret 0%float
  | JBool b => ret (if b then 1%float else 0%float)
  | JNum x => ret x
  | JStr s => ret (StringToNumber s)
  | _ => s <- ToString v ;; ret (StringToNumber s)
  end.

(** [v > 0] *)
Definition greater_than_zero (v : JsValue) : Result bool :=
  x <- ToNumber v ;; ret (PrimFloat.ltb 0 x).

(** [v < 1] *)
Definition less_than_one (v : JsValue) : Result bool :=
  x <- ToNumber v ;; ret (PrimFloat.ltb x 1).

End Engine.

(** ** Regular expressions

    [RegExp.prototype.test] for a pattern anchored at both ends, by
    derivatives: the pattern after one code unit has been consumed. *)
Inductive Regex : Type :=
| Never
| Empty
| Class (accepts : ascii -> bool)
| Seq (r1 r2 : Regex)
| Alt (r1 r2 : Regex)
| Star (r : Regex).

Fixpoint nullable (r : Regex) : bool :=
  match r with
  | Never => false
  | Empty => true
  | Class _ => false
  | Seq r1 r2 => nullable r1 && nullable r2
  | Alt r1 r2 => nullable r1 || nullable r2
  | Star _ => true
  end.

Fixpoint derive (c : ascii) (r : Regex) : Regex :=
  match r with
  | Never => Never
  | Empty => Never
  | Class accepts => if accepts c then Empty else Never
  | Seq r1 r2 =>
      if nullable r1
      then Alt (Seq (derive c r1) r2) (derive c r2)
      else Seq (derive c r1) r2
  | Alt r1 r2 => Alt (derive c r1) (derive c r2)
  | Star r1 => Seq (derive c r1) (Star r1)
  end.

(** [/^r$/.test(s)] *)
Fixpoint test (r : Regex) (s : string) : bool :=
  match s with
  | EmptyString => nullable r
  | String c rest => test (derive c r) rest
  end.

Definition in_range (low high c : ascii) : bool :=
  (nat_of_ascii low <=? nat_of_ascii c)%nat && (nat_of_ascii c <=? nat_of_ascii high)%nat.

(** [[a-z0-9]] *)
Definition lower_or_digit (c : ascii) : bool :=
  in_range "a" "z" c || in_range "0" "9" c.

(** [[a-z0-9-]] *)
Definition lower_digit_or_hyphen (c : ascii) : bool :=
  lower_or_digit c || Ascii.eqb c "-".

(** [/^[a-z0-9][a-z0-9-]*[a-z0-9]$/] *)
Definition index_name_pattern : Regex :=
  Seq (Class lower_or_digit)
      (Seq (Star (Class lower_digit_or_hyphen)) (Class lower_or_digit)).

(** ** The validators *)

(** The code units of a value known to be a string. *)
Definition string_of (v : JsValue) : string :=
  match v with JStr s => s | _ => "" end.

Definition validateIndexName (indexName : JsValue) : Result unit :=
  if negb (truthy indexName) || negb (typeof indexName =? "string")
  then throw (Error "Index name is required and must be a string")
  else
    let name := string_of indexName in
    if (63 <? String.length name)%nat
    then throw (Error "Index name must be 63 characters or less")
    else
      if negb (test index_name_pattern name) && (1 <? String.length name)%nat
      then throw (Error "Index name must contain only lowercase letters, numbers, and hyphens, and cannot start or end with a hyphen")
      else ret tt.

(** What [for (const x of v)] visits. *)
Definition iterate (name : string) (v : JsValue) : Result (list JsValue) :=
  match v with
  | JArr elems => ret elems
  | JFloat32Array elems | JFloat64Array elems => ret (map JNum elems)
  | JStr s => ret (map (fun c => JStr (String c EmptyString)) (list_ascii_of_string s))
  | _ => throw (TypeError (name ++ " is not iterable"))
  end.

(** [!values || !Array.isArray(values) && !(values instanceof Float32Array)
     && !(values instanceof Float64Array)] *)
Definition lacks_values_array (values : JsValue) : bool :=
  negb (truthy values)
  || (negb (isArray values) && negb (isFloat32Array values) && negb (isFloat64Array values)).

(** [vector.values.length] once [values] is known to be an array. *)
Definition dimensions_of (values : JsValue) : nat :=
  match length_of values with Some n => n | None => 0 end.

(** [expectedDimensions && length !== expectedDimensions], with
    [expectedDimensions] absent ([None]) or an integer. *)
Definition dimension_mismatch (expectedDimensions : option Z) (len : nat) : bool :=
  match expectedDimensions with
  | None => false
  | Some expected => negb (expected =? 0)%Z && negb (Z.of_nat len =? expected)%Z
  end.

(** [`${expectedDimensions}`]: the number as Number::toString prints it, in
    full below 10^21 and with an exponent from there on. *)
Definition expected_text (expectedDimensions : option Z) : string :=
  match expectedDimensions with
  | None => "undefined"
  | Some expected => NumberToString (number_of_Z expected)
  end.

(** The body of the loop of [validateVectorDimensions]. *)
Definition validate_vector (expectedDimensions : option Z) (vector : JsValue)
  : Result unit :=
  values <- read vector "values" ;;
  if lacks_values_array values
  then
    id <- read vector "id" ;;
    id_text <- ToString id ;;
    throw (Error ("Vector " ++ id_text ++ " must have a 'values' array"))
  else
    if dimension_mismatch expectedDimensions (dimensions_of values)
    then
      id <- read vector "id" ;;
      id_text <- ToString id ;;
      throw (Error ("Vector " ++ id_text ++ " has "
                    ++ IntegerToString (Z.of_nat (dimensions_of values))
                    ++ " dimensions, expected " ++ expected_text expectedDimensions))
    else
      id <- read vector "id" ;;
      if negb (truthy id) || negb (typeof id =? "string")
      then throw (Error "All vectors must have a valid string ID")
      else ret tt.

Fixpoint validate_each (expectedDimensions : option Z) (vectors : list JsValue)
  : Result unit :=
  match vectors with
  | [] => ret tt
  | vector :: rest =>
      validate_vector expectedDimensions vector ;;
      validate_each expectedDimensions rest
  end.

Definition validateVectorDimensions (vectors : JsValue) (expectedDimensions : option Z)
  : Result unit :=
  each <- iterate "vectors" vectors ;;
  validate_each expectedDimensions each.

(** ** The formatter and the batcher *)

Definition index_text (index : nat) : string := IntegerToString (Z.of_nat index).

(** The callback of [vectors.map] in [formatVectors]. *)
Definition format_vector (vector : JsValue) (index : nat) : Result JsValue :=
  if negb (typeof vector =? "object") || negb (truthy vector)
  then throw (Error ("Vector at index " ++ index_text index ++ " must be an object"))
  else
    id <- read vector "id" ;;
    if negb (truthy id)
    then throw (Error ("Vector at index " ++ index_text index ++ " must have an 'id' field"))
    else
      values <- read vector "values" ;;
      if lacks_values_array values
      then throw (Error ("Vector at index " ++ index_text index ++ " must have a 'values' array"))
      else
        id_text <- ToString id ;;
        let formatted := [("id", JStr id_text); ("values", values)] in
        metadata <- read vector "metadata" ;;
        let formatted :=
          if truthy metadata then assign "metadata" metadata formatted else formatted in
        namespace <- read vector "namespace" ;;
        if truthy namespace
        then
          namespace_text <- ToString namespace ;;
          ret (JObj (assign "namespace" (JStr namespace_text) formatted))
        else ret (JObj formatted).

Definition formatVectors (vectors : list JsValue) : Result (list JsValue) :=
  mapM_indexed format_vector 0 vectors.

(** [array.slice(start, end)] with integer bounds: a negative bound counts
    from the end, and both are clamped to the array. *)
Definition relative_index (len : nat) (i : Z) : nat :=
  if (i <? 0)%Z then Z.to_nat (Z.max (Z.of_nat len + i) 0)
  else Z.to_nat (Z.min i (Z.of_nat len)).

Definition slice {A : Type} (l : list A) (start finish : Z) : list A :=
  let from := relative_index (length l) start in
  let to := relative_index (length l) finish in
  firstn (to - from) (skipn from l).

(** The state of the loop of [batchVectors]: the counter [i] and the
    batches pushed so far. *)
Record BatchLoop (A : Type) : Type := {
  counter : Z;
  batches : list (list A)
}.
Arguments counter {A} _.
Arguments batches {A} _.

(** [i < vectors.length] *)
Definition batch_continues {A : Type} (vectors : list A) (st : BatchLoop A) : bool :=
  (counter st <? Z.of_nat (length vectors))%Z.

(** [batches.push(vectors.slice(i, i + batchSize))], then [i += batchSize]. *)
Definition batch_step {A : Type} (vectors : list A) (batchSize : Z) (st : BatchLoop A)
  : BatchLoop A :=
  {| counter := (counter st + batchSize)%Z;
     batches := batches st ++ [slice vectors (counter st) (counter st + batchSize)%Z] |}.

(** The loop, cut after [fuel] tests of its condition: [None] when it is
    still running then. *)
Fixpoint batch_loop {A : Type} (fuel : nat) (vectors : list A) (batchSize : Z)
  (st : BatchLoop A) : option (list (list A)) :=
  match fuel with
  | O => None
  | S fuel' =>
      if batch_continues vectors st
      then batch_loop fuel' vectors batchSize (batch_step vectors batchSize st)
      else Some (batches st)
  end.

(** [batchSize = 1000] *)
Definition default_batch_size : Z := 1000.

Definition batchVectors {A : Type} (fuel : nat) (vectors : list A) (batchSize : option Z)
  : option (list (list A)) :=
  let batchSize := match batchSize with Some n => n | None => default_batch_size end in
  batch_loop fuel vectors batchSize {| counter := 0; batches := [] |}.

(** ** The request executor *)

Record VectorizeConnectionConfig : Type := {
  accountId : string;
  apiToken : string;
  apiEndpoint : string
}.

Inductive IHttpRequestMethods : Type := DELETE | GET | HEAD | PATCH | POST | PUT.

(** The [httpOptions] object handed to the HTTP helper. *)
Record IHttpRequestOptions : Type := {
  method : IHttpRequestMethods;
  headers : list (string * string);
  url : string;
  json : bool;
  body : JsValue
}.

(** The part of n8n's execution context the utilities use: the HTTP helper,
    which answers a request with the parsed response body or throws, and the
    node descriptor. *)
Record IExecuteFunctions : Type := {
  httpRequestWithAuthentication : string -> IHttpRequestOptions -> Result JsValue;
  getNode : INode
}.

(** An [async] method, once settled: the requests it handed to the HTTP
    helper, in order, and whether its promise was rejected or fulfilled. *)
Record Async (A : Type) : Type := settle {
  requests : list IHttpRequestOptions;
  outcome : Result A
}.
Arguments settle {A} _ _.
Arguments requests {A} _.
Arguments outcome {A} _.

(** Synchronous code inside an [async] method. *)
Definition sync {A : Type} (r : Result A) : Async A := settle [] r.

Definition await {A B : Type} (p : Async A) (k : A -> Async B) : Async B :=
  match outcome p with
  | inl e => settle (requests p) (inl e)
  | inr a => settle (requests p ++ requests (k a)) (outcome (k a))
  end.

Notation "x <~ c1 ;; c2" := (await c1 (fun x => c2))
  (at level 61, c1 at next level, right associativity).

(** [error.key] on a caught value. *)
Definition read_error (error : JsError) (key : string) : Result JsValue :=
  match error with
  | Thrown value => read value key
  | Error message | TypeError message | NodeOperationError _ message _ =>
      ret (if key =? "message" then JStr message else JUndefined)
  end.

(** [errors.map((error) => error.message).join(', ')], where [callee] is the
    text of the expression [errors] in the source.  On a typed array the
    mapped values are stored as numbers, so every entry becomes NaN. *)
Definition error_messages (callee : string) (errors : JsValue) : Result string :=
  match errors with
  | JArr elems =>
      messages <- mapM (fun error => read error "message") elems ;;
      join messages ", "
  | JFloat32Array elems | JFloat64Array elems =>
      ret (String.concat ", " (map (fun _ => "NaN") elems))
  | JUndefined | JNull => _ <- read errors "map" ;; ret ""
  | _ => throw (TypeError (callee ++ ".map is not a function"))
  end.

(** The own enumerable properties copied by [{...v}]. *)
Definition indexed {A : Type} (f : A -> JsValue) (l : list A) : list (string * JsValue) :=
  map (fun p => (index_text (fst p), f (snd p))) (combine (seq 0 (length l)) l).

Definition spread (v : JsValue) : list (string * JsValue) :=
  match v with
  | JObj props => props
  | JArr elems => indexed (fun x => x) elems
  | JFloat32Array elems | JFloat64Array elems => indexed JNum elems
  | JStr s => indexed (fun c => JStr (String c EmptyString)) (list_ascii_of_string s)
  | _ => []
  end.

(** The constants [url] and [httpOptions] of [executeRequest]. *)
Definition request_url (config : VectorizeConnectionConfig) (endpoint : string) : string :=
  apiEndpoint config ++ "/accounts/" ++ accountId config ++ "/vectorize/v2/" ++ endpoint.

Definition http_options (config : VectorizeConnectionConfig) (endpoint : string)
  (method : IHttpRequestMethods) (body : JsValue) : IHttpRequestOptions :=
  {| method := method;
     headers := [("Authorization", "Bearer " ++ apiToken config);
                 ("Content-Type", "application/json")];
     url := request_url config endpoint;
     json := true;
     body := body |}.

Section Utils.
Variable StringToNumber : string -> float.

(** [new NodeOperationError(node, message, { itemIndex })] is n8n-workflow's:
    the message of the error it builds is the library's own reading of the
    text it is given, which it may replace by a description of its own.
    [describe] is that reading. *)
Variable describe : string -> string.

(** The [try] block after the helper has answered. *)
Definition read_response (node : INode) (itemIndex : Z) (response : JsValue)
  : Result JsValue :=
  success <- read response "success" ;;
  if is_false success
  then
    errors <- read response "errors" ;;
    errorMessages <- error_messages "errors" (or_else errors (JArr [])) ;;
    throw (NodeOperationError node
             (describe ("Cloudflare API error: " ++ errorMessages)) itemIndex)
  else
    result <- read response "result" ;;
    ret (or_else result response).

(** The [catch] block. *)
Definition handle_failure (node : INode) (itemIndex : Z) (error : JsError)
  : Result JsValue :=
  match error with
  | NodeOperationError _ _ _ => throw error
  | _ =>
      response <- read_error error "response" ;;
      status <- read_optional response "status" ;;
      if truthy status
      then
        data <- read response "data" ;;
        status_text <- ToString status ;;
        errors <- read_optional data "errors" ;;
        count <- read_optional errors "length" ;;
        some <- greater_than_zero StringToNumber count ;;
        if some
        then
          apiErrors <- error_messages "data.errors" errors ;;
          throw (NodeOperationError node (describe ("API error: " ++ apiErrors)) itemIndex)
        else
          message <- read_optional data "message" ;;
          if truthy message
          then
            message_text <- ToString message ;;
            throw (NodeOperationError node
                     (describe ("API error: " ++ message_text)) itemIndex)
          else
            throw (NodeOperationError node
                     (describe ("HTTP " ++ status_text ++ " error")) itemIndex)
      else
        message <- read_error error "message" ;;
        message_text <- ToString message ;;
        throw (NodeOperationError node
                 (describe ("Request failed: " ++ message_text)) itemIndex)
  end.

(** [method] and [itemIndex] have defaults in the source (['GET'] and [0]);
    every call in the repository passes both, as here. *)
Definition executeRequest (context : IExecuteFunctions)
  (config : VectorizeConnectionConfig) (endpoint : string)
  (method : IHttpRequestMethods) (body : JsValue) (itemIndex : Z) : Async JsValue :=
  let httpOptions := http_options config endpoint method body in
  settle [httpOptions]
    match
      response <- httpRequestWithAuthentication context "cloudflareVectorizeApi" httpOptions ;;
      read_response (getNode context) itemIndex response
    with
    | inr result => ret result
    | inl error => handle_failure (getNode context) itemIndex error
    end.

(** [`indexes/${indexName}${suffix}`] *)
Definition index_endpoint (indexName : JsValue) (suffix : string) : Result string :=
  name <- ToString indexName ;;
  ret ("indexes/" ++ name ++ suffix).

(** *** Index operations *)

Definition createIndex (context : IExecuteFunctions) (config : VectorizeConnectionConfig)
  (request : JsValue) (itemIndex : Z) : Async JsValue :=
  _ <~ sync (name <- read request "name" ;; validateIndexName name) ;;
  _ <~ sync (
    index_config <- read request "config" ;;
    dimensions <- read_optional index_config "dimensions" ;;
    too_small <- (if negb (truthy dimensions) then ret true
                  else less_than_one StringToNumber dimensions) ;;
    if too_small then throw (Error "Dimensions must be a positive integer") else ret tt) ;;
  executeRequest context config "indexes" POST request itemIndex.

Definition listIndexes (context : IExecuteFunctions) (config : VectorizeConnectionConfig)
  (itemIndex : Z) : Async JsValue :=
  response <~ executeRequest context config "indexes" GET JUndefined itemIndex ;;
  sync (indexes <- read response "indexes" ;; ret (or_else indexes response)).

Definition deleteIndex (context : IExecuteFunctions) (config : VectorizeConnectionConfig)
  (indexName : JsValue) (itemIndex : Z) : Async JsValue :=
  _ <~ sync (validateIndexName indexName) ;;
  endpoint <~ sync (index_endpoint indexName "") ;;
  _ <~ executeRequest context config endpoint DELETE JUndefined itemIndex ;;
  sync (ret JUndefined).

Definition getIndex (context : IExecuteFunctions) (config : VectorizeConnectionConfig)
  (indexName : JsValue) (itemIndex : Z) : Async JsValue :=
  _ <~ sync (validateIndexName indexName) ;;
  endpoint <~ sync (index_endpoint indexName "") ;;
  executeRequest context config endpoint GET JUndefined itemIndex.

Definition getIndexInfo (context : IExecuteFunctions) (config : VectorizeConnectionConfig)
  (indexName : JsValue) (itemIndex : Z) : Async JsValue :=
  _ <~ sync (validateIndexName indexName) ;;
  endpoint <~ sync (index_endpoint indexName "/info") ;;
  executeRequest context config endpoint GET JUndefined itemIndex.

(** *** Vector operations *)

Definition insertVectors (context : IExecuteFunctions) (config : VectorizeConnectionConfig)
  (indexName request : JsValue) (itemIndex : Z) : Async JsValue :=
  _ <~ sync (validateIndexName indexName) ;;
  _ <~ sync (vectors <- read request "vectors" ;; validateVectorDimensions vectors None) ;;
  endpoint <~ sync (index_endpoint indexName "/insert") ;;
  executeRequest context config endpoint POST request itemIndex.

Definition upsertVectors (context : IExecuteFunctions) (config : VectorizeConnectionConfig)
  (indexName request : JsValue) (itemIndex : Z) : Async JsValue :=
  _ <~ sync (validateIndexName indexName) ;;
  _ <~ sync (vectors <- read request "vectors" ;; validateVectorDimensions vectors None) ;;
  endpoint <~ sync (index_endpoint indexName "/upsert") ;;
  executeRequest context config endpoint POST request itemIndex.

Definition queryVectors (context : IExecuteFunctions) (config : VectorizeConnectionConfig)
  (indexName request : JsValue) (itemIndex : Z) : Async JsValue :=
  _ <~ sync (validateIndexName indexName) ;;
  _ <~ sync (
    vector <- read request "vector" ;;
    if negb (truthy vector) || negb (isArray vector)
    then throw (Error "Query vector is required and must be an array")
    else ret tt) ;;
  endpoint <~ sync (index_endpoint indexName "/query") ;;
  executeRequest context config endpoint POST request itemIndex.

Definition queryVectorById (context : IExecuteFunctions) (config : VectorizeConnectionConfig)
  (indexName request : JsValue) (itemIndex : Z) : Async JsValue :=
  _ <~ sync (validateIndexName indexName) ;;
  id <~ sync (
    id <- read request "id" ;;
    if negb (truthy id) || negb (typeof id =? "string")
    then throw (Error "Vector ID is required and must be a string")
    else ret id) ;;
  endpoint <~ sync (index_endpoint indexName "/query") ;;
  executeRequest context config endpoint POST
    (JObj (assign "vector" id (spread request))) itemIndex.

(** [!request.ids || !Array.isArray(request.ids) || request.ids.length === 0] *)
Definition require_ids (request : JsValue) : Result unit :=
  ids <- read request "ids" ;;
  if negb (truthy ids) || negb (isArray ids) || (dimensions_of ids =? 0)%nat
  then throw (Error "Vector IDs are required and must be a non-empty array")
  else ret tt.

Definition getVectorsByIds (context : IExecuteFunctions) (config : VectorizeConnectionConfig)
  (indexName request : JsValue) (itemIndex : Z) : Async JsValue :=
  _ <~ sync (validateIndexName indexName) ;;
  _ <~ sync (require_ids request) ;;
  endpoint <~ sync (index_endpoint indexName "/get_by_ids") ;;
  executeRequest context config endpoint POST request itemIndex.

Definition deleteVectorsByIds (context : IExecuteFunctions) (config : VectorizeConnectionConfig)
  (indexName request : JsValue) (itemIndex : Z) : Async JsValue :=
  _ <~ sync (validateIndexName indexName) ;;
  _ <~ sync (require_ids request) ;;
  endpoint <~ sync (index_endpoint indexName "/delete_by_ids") ;;
  executeRequest context config endpoint POST request itemIndex.

(** *** Metadata operations *)

(** [!request.propertyName || typeof request.propertyName !== 'string'] *)
Definition require_property_name (request : JsValue) : Result unit :=
  propertyName <- read request "propertyName" ;;
  if negb (truthy propertyName) || negb (typeof propertyName =? "string")
  then throw (Error "Property name is required and must be a string")
  else ret tt.

Definition createMetadataIndex (context : IExecuteFunctions)
  (config : VectorizeConnectionConfig) (indexName request : JsValue) (itemIndex : Z)
  : Async JsValue :=
  _ <~ sync (validateIndexName indexName) ;;
  _ <~ sync (require_property_name request) ;;
  endpoint <~ sync (index_endpoint indexName "/metadata_index/create") ;;
  executeRequest context config endpoint POST request itemIndex.

Definition deleteMetadataIndex (context : IExecuteFunctions)
  (config : VectorizeConnectionConfig) (indexName request : JsValue) (itemIndex : Z)
  : Async JsValue :=
  _ <~ sync (validateIndexName indexName) ;;
  _ <~ sync (require_property_name request) ;;
  endpoint <~ sync (index_endpoint indexName "/metadata_index/delete") ;;
  executeRequest context config endpoint POST request itemIndex.

Definition listMetadataIndexes (context : IExecuteFunctions)
  (config : VectorizeConnectionConfig) (indexName : JsValue) (itemIndex : Z)
  : Async JsValue :=
  _ <~ sync (validateIndexName indexName) ;;
  endpoint <~ sync (index_endpoint indexName "/metadata_index/list") ;;
  executeRequest context config endpoint GET JUndefined itemIndex.

(** *** Utility operations *)

(** [URLSearchParams.prototype.toString]: the form-urlencoded serializer. *)
Definition hex_digit (n : nat) : string :=
  substring n 1 "0123456789ABCDEF".

Definition percent_byte (byte : nat) : string :=
  "%" ++ hex_digit (byte / 16) ++ hex_digit (byte mod 16).

Definition form_safe (c : ascii) : bool :=
  in_range "a" "z" c || in_range "A" "Z" c || in_range "0" "9" c
  || Ascii.eqb c "*" || Ascii.eqb c "-" || Ascii.eqb c "." || Ascii.eqb c "_".

Definition form_encode_unit (c : ascii) : string :=
  if Ascii.eqb c " " then "+"
  else if form_safe c then String c EmptyString
  else
    let n := nat_of_ascii c in
    if (n <? 128)%nat then percent_byte n
    else percent_byte (192 + n / 64) ++ percent_byte (128 + n mod 64).

Definition form_encode (s : string) : string :=
  String.concat "" (map form_encode_unit (list_ascii_of_string s)).

Definition search_params_text (params : list (string * string)) : string :=
  String.concat "&" (map (fun p => form_encode (fst p) ++ "=" ++ form_encode (snd p)) params).

(** [v.toString()] on a truthy value. *)
Definition call_toString (callee : string) (v : JsValue) : Result string :=
  match v with
  | JObj props =>
      if has_key "toString" props
      then throw (TypeError (callee ++ ".toString is not a function"))
      else ret "[object Object]"
  | _ => ToString v
  end.

Definition listVectors (context : IExecuteFunctions) (config : VectorizeConnectionConfig)
  (indexName request : JsValue) (itemIndex : Z) : Async JsValue :=
  let request := match request with JUndefined => JObj [] | _ => request end in
  _ <~ sync (validateIndexName indexName) ;;
  queryParams <~ sync (
    cursor <- read request "cursor" ;;
    with_cursor <- (if truthy cursor
                    then cursor_text <- ToString cursor ;; ret [("cursor", cursor_text)]
                    else ret []) ;;
    limit <- read request "limit" ;;
    if truthy limit
    then
      limit_text <- call_toString "request.limit" limit ;;
      ret (with_cursor ++ [("limit", limit_text)])%list
    else ret with_cursor) ;;
  endpoint <~ sync (
    let query := search_params_text queryParams in
    index_endpoint indexName
      ("/list" ++ (if negb (query =? "") then "?" ++ query else ""))) ;;
  executeRequest context config endpoint GET JUndefined itemIndex.

Definition describeIndex (context : IExecuteFunctions) (config : VectorizeConnectionConfig)
  (indexName : JsValue) (itemIndex : Z) : Async JsValue :=
  getIndex context config indexName itemIndex.

(** The sixteen operations with their arguments; [perform] calls the method
    of the same name. *)
Inductive Operation : Type :=
| CreateIndex (request : JsValue)
| ListIndexes
| DeleteIndex (indexName : JsValue)
| GetIndex (indexName : JsValue)
| GetIndexInfo (indexName : JsValue)
| InsertVectors (indexName request : JsValue)
| UpsertVectors (indexName request : JsValue)
| QueryVectors (indexName request : JsValue)
| QueryVectorById (indexName request : JsValue)
| GetVectorsByIds (indexName request : JsValue)
| DeleteVectorsByIds (indexName request : JsValue)
| CreateMetadataIndex (indexName request : JsValue)
| DeleteMetadataIndex (indexName request : JsValue)
| ListMetadataIndexes (indexName : JsValue)
| ListVectors (indexName request : JsValue)
| DescribeIndex (indexName : JsValue).

Definition perform (context : IExecuteFunctions) (config : VectorizeConnectionConfig)
  (operation : Operation) (itemIndex : Z) : Async JsValue :=
  match operation with
  | CreateIndex request => createIndex context config request itemIndex
  | ListIndexes => listIndexes context config itemIndex
  | DeleteIndex indexName => deleteIndex context config indexName itemIndex
  | GetIndex indexName => getIndex context config indexName itemIndex
  | GetIndexInfo indexName => getIndexInfo context config indexName itemIndex
  | InsertVectors indexName request => insertVectors context config indexName request itemIndex
  | UpsertVectors indexName request => upsertVectors context config indexName request itemIndex
  | QueryVectors indexName request => queryVectors context config indexName request itemIndex
  | QueryVectorById indexName request => queryVectorById context config indexName request itemIndex
  | GetVectorsByIds indexName request => getVectorsByIds context config indexName request itemIndex
  | DeleteVectorsByIds indexName request => deleteVectorsByIds context config indexName request itemIndex
  | CreateMetadataIndex indexName request => createMetadataIndex context config indexName request itemIndex
  | DeleteMetadataIndex indexName request => deleteMetadataIndex context config indexName request itemIndex
  | ListMetadataIndexes indexName => listMetadataIndexes context config indexName itemIndex
  | ListVectors indexName request => listVectors context config indexName request itemIndex
  | DescribeIndex indexName => describeIndex context config indexName itemIndex
  end.

End Utils.

(** ** Concrete runs *)

(** A context whose HTTP helper gives the same answer to every request. *)
Definition mock (answer : Result JsValue) : IExecuteFunctions :=
  {| httpRequestWithAuthentication := fun _ _ => answer;
     getNode := "Cloudflare Vectorize" |}.

Definition example_config : VectorizeConnectionConfig :=
  {| accountId := "acc";
     apiToken := "secret-token";
     apiEndpoint := "https://api.cloudflare.com/client/v4" |}.

(** The runs below compare no string with a number, so the engine's
    StringToNumber is never consulted; this stands in for it. *)
Definition not_consulted (s : string) : float := nan.

(** A constructor of [NodeOperationError] that keeps the message it is
    given; this stands in for the library's in the runs below. *)
Definition message_kept (message : string) : string := message.

(** The vector [{id: "v1", values: [...]}]. *)
Definition vector_v1 (values : list JsValue) : JsValue :=
  JObj [("id", JStr "v1"); ("values", JArr values)].

(** The envelope of scenario C and a successful one. *)
Definition not_found_envelope : JsValue :=
  JObj [("success", JBool false);
        ("errors", JArr [JObj [("code", JNum 1003); ("message", JStr "index not found")]])].

Definition mutation_envelope : JsValue :=
  JObj [("success", JBool true); ("result", JObj [("mutationId", JStr "m1")])].

(** ** Notions used in the statements *)

(** The words of a pattern. *)
Inductive matches : Regex -> list ascii -> Prop :=
| matches_empty : matches Empty []
| matches_class accepts c : accepts c = true -> matches (Class accepts) [c]
| matches_seq r1 r2 w1 w2 :
    matches r1 w1 -> matches r2 w2 -> matches (Seq r1 r2) (w1 ++ w2)
| matches_alt_left r1 r2 w : matches r1 w -> matches (Alt r1 r2) w
| matches_alt_right r1 r2 w : matches r2 w -> matches (Alt r1 r2) w
| matches_star_nil r : matches (Star r) []
| matches_star_cons r w1 w2 :
    matches r w1 -> matches (Star r) w2 -> matches (Star r) (w1 ++ w2).

(** A lowercase letter or digit first and last, and lowercase letters,
    digits and hyphens in between: at least two code units. *)
Definition name_shaped (s : string) : Prop :=
  exists first middle last,
    list_ascii_of_string s = (first :: middle ++ [last])%list
    /\ lower_or_digit first = true
    /\ Forall (fun c => lower_digit_or_hyphen c = true) middle
    /\ lower_or_digit last = true.



(** An array or one of the two typed arrays. *)
Definition is_sequence (values : JsValue) : bool :=
  isArray values || isFloat32Array values || isFloat64Array values.

(** A vector [validateVectorDimensions] lets pass: an object whose [values]
    is a sequence, of the expected length when a non-zero one is given, and
    whose [id] is a non-empty string. *)
Definition well_shaped (expectedDimensions : option Z) (vector : JsValue) : Prop :=
  exists props id,
    vector = JObj props
    /\ is_sequence (lookup "values" props) = true
    /\ (forall expected, expectedDimensions = Some expected -> expected <> 0%Z ->
        Z.of_nat (dimensions_of (lookup "values" props)) = expected)
    /\ lookup "id" props = JStr id
    /\ id <> "".

(** A raw vector as the data model has it: an object with a non-empty string
    [id], a sequence as [values], and a [namespace] that is a string when
    there is one. *)
Definition well_formed_raw (vector : JsValue) : Prop :=
  exists props id,
    vector = JObj props
    /\ lookup "id" props = JStr id
    /\ id <> ""
    /\ is_sequence (lookup "values" props) = true
    /\ (lookup "namespace" props = JUndefined
        \/ exists namespace, lookup "namespace" props = JStr namespace).

(** What the formatter is to return for a well-formed raw vector: its [id]
    and [values], then its [metadata] and [namespace] when they are truthy. *)
Definition expected_format (vector : JsValue) : JsValue :=
  let props := spread vector in
  JObj ([("id", lookup "id" props); ("values", lookup "values" props)]
        ++ (if truthy (lookup "metadata" props)
            then [("metadata", lookup "metadata" props)] else [])
        ++ (if truthy (lookup "namespace" props)
            then [("namespace", lookup "namespace" props)] else []))%list.

(** [ceil(len / n)] for a positive [n]. *)
Definition ceil_div (len n : Z) : Z := ((len + n - 1) / n)%Z.

(** The same connection with another token. *)
Definition with_token (token : string) (config : VectorizeConnectionConfig)
  : VectorizeConnectionConfig :=
  {| accountId := accountId config;
     apiToken := token;
     apiEndpoint := apiEndpoint config |}.

(** A request with its Authorization header removed. *)
Definition without_authorization (options : IHttpRequestOptions) : IHttpRequestOptions :=
  {| method := method options;
     headers := filter (fun h => negb (fst h =? "Authorization")) (headers options);
     url := url options;
     json := json options;
     body := body options |}.

(** A helper whose answer is fixed by everything in the request but the
    Authorization header. *)
Definition ignores_authorization (context : IExecuteFunctions) : Prop :=
  forall credentials options1 options2,
    without_authorization options1 = without_authorization options2 ->
    httpRequestWithAuthentication context credentials options1
    = httpRequestWithAuthentication context credentials options2.

(** Two settled runs with the same outcome and, the Authorization header
    apart, the same requests. *)
Definition same_observation {A : Type} (p q : Async A) : Prop :=
  outcome p = outcome q
  /\ map without_authorization (requests p) = map without_authorization (requests q).

(** The message of an error, if it has one. *)
Definition message_of (e : JsError) : option string :=
  match e with
  | Error message | TypeError message | NodeOperationError _ message _ => Some message
  | Thrown _ => None
  end.

(** The header all requests carry: the only place of the token. *)
Definition carries_token (config : VectorizeConnectionConfig) (options : IHttpRequestOptions)
  : Prop :=
  headers options = [("Authorization", "Bearer " ++ apiToken config);
                     ("Content-Type", "application/json")].

(** An error raised by the engine. *)
Definition is_type_error (e : JsError) : Prop := exists message, e = TypeError message.

(** A [NodeOperationError] of the given node and item. *)
Definition is_operation_error (node : INode) (itemIndex : Z) (e : JsError) : Prop :=
  exists message, e = NodeOperationError node message itemIndex.

(** Neither [undefined] nor [null]. *)
Definition not_nullish (v : JsValue) : Prop := v <> JUndefined /\ v <> JNull.

(** An error body without entries: no body, no [errors] field, or an empty
    [errors] array. *)
Definition without_errors (data : JsValue) : Prop :=
  data = JUndefined
  \/ exists props,
       data = JObj props
       /\ (lookup "errors" props = JUndefined \/ lookup "errors" props = JArr []).

(** The [message] field of an error body, [undefined] when there is no body. *)
Definition body_message (data : JsValue) : JsValue := lookup "message" (spread data).

(** A failure of the helper with an HTTP response: [{message, response:
    {status, data}}]. *)
Definition http_failure (status : float) (data : JsValue) : list (string * JsValue) :=
  [("message", JStr "Request failed with status code");
   ("response", JObj [("status", JNum status); ("data", data)])].

(** The index name an operation validates first, if it has one. *)
Definition operation_index_name (operation : Operation) : option JsValue :=
  match operation with
  | CreateIndex request =>
      match read request "name" with inr name => Some name | inl _ => None end
  | ListIndexes => None
  | DeleteIndex indexName | GetIndex indexName | GetIndexInfo indexName
  | ListMetadataIndexes indexName | DescribeIndex indexName => Some indexName
  | InsertVectors indexName _ | UpsertVectors indexName _ | QueryVectors indexName _
  | QueryVectorById indexName _ | GetVectorsByIds indexName _
  | DeleteVectorsByIds indexName _ | CreateMetadataIndex indexName _
  | DeleteMetadataIndex indexName _ | ListVectors indexName _ => Some indexName
  end.

(** The table of methods and paths, by operation. *)
Definition route_method (operation : Operation) : IHttpRequestMethods :=
  match operation with
  | DeleteIndex _ => DELETE
  | ListIndexes | GetIndex _ | GetIndexInfo _ | ListMetadataIndexes _
  | ListVectors _ _ | DescribeIndex _ => GET
  | _ => POST
  end.

Definition route_suffix (operation : Operation) : string :=
  match operation with
  | CreateIndex _ | ListIndexes | DeleteIndex _ | GetIndex _ | DescribeIndex _ => ""
  | GetIndexInfo _ => "/info"
  | InsertVectors _ _ => "/insert"
  | UpsertVectors _ _ => "/upsert"
  | QueryVectors _ _ | QueryVectorById _ _ => "/query"
  | GetVectorsByIds _ _ => "/get_by_ids"
  | DeleteVectorsByIds _ _ => "/delete_by_ids"
  | CreateMetadataIndex _ _ => "/metadata_index/create"
  | DeleteMetadataIndex _ _ => "/metadata_index/delete"
  | ListMetadataIndexes _ => "/metadata_index/list"
  | ListVectors _ _ => "/list"
  end.

Definition route_path (operation : Operation) : string :=
  match operation with
  | CreateIndex _ | ListIndexes => "indexes"
  | _ =>
      match operation_index_name operation with
      | Some indexName => "indexes/" ++ string_of indexName ++ route_suffix operation
      | None => "indexes"
      end
  end.

(** The body an operation sends: none for the reading operations, the
    request for the others, with [vector] set to the id for a query by id. *)
Definition route_body (operation : Operation) : JsValue :=
  match operation with
  | CreateIndex request
  | InsertVectors _ request | UpsertVectors _ request | QueryVectors _ request
  | GetVectorsByIds _ request | DeleteVectorsByIds _ request
  | CreateMetadataIndex _ request | DeleteMetadataIndex _ request => request
  | QueryVectorById _ request =>
      JObj (assign "vector" (lookup "id" (spread request)) (spread request))
  | _ => JUndefined
  end.

(** Whether an operation may add a query string to its path. *)
Definition has_query (operation : Operation) : bool :=
  match operation with ListVectors _ _ => true | _ => false end.

(** The characters the form-urlencoded serializer can write for a value. *)
Definition url_safe (c : ascii) : Prop :=
  form_safe c = true \/ c = "+"%char \/ c = "%"%char.

(** The objects [formatVectors] builds: [id] and [values], then [metadata]
    and [namespace] if they were copied. *)
Definition formatted_vector (id : string) (values : JsValue)
  (metadata : option JsValue) (namespace : option string) : JsValue :=
  JObj ([("id", JStr id); ("values", values)]
        ++ match metadata with Some m => [("metadata", m)] | None => [] end
        ++ match namespace with Some n => [("namespace", JStr n)] | None => [] end)%list.

(** Every batch but the last is full, and the last is not empty. *)
Fixpoint full_but_last {A : Type} (batchSize : Z) (chunks : list (list A)) : Prop :=
  match chunks with
  | [] => True
  | [chunk] => (1 <= Z.of_nat (length chunk) <= batchSize)%Z
  | chunk :: rest => Z.of_nat (length chunk) = batchSize /\ full_but_last batchSize rest
  end.

(** * Properties *)

(** ** Patterns *)

Lemma matches_seq_inv r1 r2 w :
  matches (Seq r1 r2) w ->
  exists w1 w2, w = (w1 ++ w2)%list /\ matches r1 w1 /\ matches r2 w2.
Proof. intro H. inversion H; subst. eauto. Qed.

Lemma matches_alt_inv r1 r2 w :
  matches (Alt r1 r2) w -> matches r1 w \/ matches r2 w.
Proof. intro H. inversion H; subst; auto. Qed.

Lemma matches_seq_cons r1 r2 c w1 w2 :
  matches r1 (c :: w1) -> matches r2 w2 -> matches (Seq r1 r2) (c :: w1 ++ w2).
Proof. intros M1 M2. apply (matches_seq r1 r2 (c :: w1) w2 M1 M2). Qed.

Lemma matches_seq_nil r1 r2 w :
  matches r1 [] -> matches r2 w -> matches (Seq r1 r2) w.
Proof. intros M1 M2. apply (matches_seq r1 r2 [] w M1 M2). Qed.

Lemma nullable_matches r : nullable r = true <-> matches r [].
Proof.
  induction r; simpl; split; intro H;
    try discriminate; try (now constructor); try (now inversion H).
  - apply andb_true_iff in H as [H1 H2].
    apply matches_seq_nil; [now apply IHr1 | now apply IHr2].
  - apply matches_seq_inv in H as (w1 & w2 & E & M1 & M2).
    symmetry in E. apply app_eq_nil in E as [-> ->].
    apply andb_true_iff; split; [now apply IHr1 | now apply IHr2].
  - apply orb_true_iff in H as [H | H].
    + apply matches_alt_left; now apply IHr1.
    + apply matches_alt_right; now apply IHr2.
  - apply orb_true_iff.
    apply matches_alt_inv in H as [H | H]; [left; now apply IHr1 | right; now apply IHr2].
Qed.

Lemma matches_star_uncons r c w :
  matches (Star r) (c :: w) ->
  exists w1 w2, w = (w1 ++ w2)%list /\ matches r (c :: w1) /\ matches (Star r) w2.
Proof.
  intro H. remember (Star r) as sr eqn:Er. remember (c :: w) as cw eqn:Ew.
  revert c w Er Ew.
  induction H as [| | | | | |r' w1 w2 M1 _ M2 IH2]; intros c0 w0 Er Ew; try discriminate.
  injection Er as ->.
  destruct w1 as [|c1 w1]; simpl in Ew.
  - now apply IH2.
  - injection Ew as -> <-. now exists w1, w2.
Qed.

Lemma derive_matches c r : forall w, matches (derive c r) w <-> matches r (c :: w).
Proof.
  induction r as [| |accepts|r1 IH1 r2 IH2|r1 IH1 r2 IH2|r IH]; intro w; simpl.
  - split; intro H; inversion H.
  - split; intro H; inversion H.
  - destruct (accepts c) eqn:Ec; split; intro H; inversion H; subst.
    + now constructor.
    + constructor.
    + congruence.
  - assert (Hseq : matches (Seq (derive c r1) r2) w ->
                   matches (Seq r1 r2) (c :: w)).
    { intro H. apply matches_seq_inv in H as (w1 & w2 & -> & M1 & M2).
      apply matches_seq_cons; [now apply IH1 | assumption]. }
    assert (Hsplit : matches (Seq r1 r2) (c :: w) ->
                     (matches r1 [] /\ matches r2 (c :: w))
                     \/ matches (Seq (derive c r1) r2) w).
    { intro H. apply matches_seq_inv in H as (w1 & w2 & E & M1 & M2).
      destruct w1 as [|c1 w1]; simpl in E.
      - subst w2. now left.
      - injection E as -> ->. right.
        constructor; [now apply IH1 | assumption]. }
    destruct (nullable r1) eqn:N1; split; intro H.
    + apply matches_alt_inv in H as [H | H]; [now apply Hseq |].
      apply matches_seq_nil; [now apply nullable_matches | now apply IH2].
    + apply Hsplit in H as [[M1 M2] | H].
      * apply matches_alt_right. now apply IH2.
      * now apply matches_alt_left.
    + now apply Hseq.
    + apply Hsplit in H as [[M1 M2] | H]; [| assumption].
      apply nullable_matches in M1. congruence.
  - split; intro H; apply matches_alt_inv in H as [H | H].
    + apply matches_alt_left. now apply IH1.
    + apply matches_alt_right. now apply IH2.
    + apply matches_alt_left. now apply IH1.
    + apply matches_alt_right. now apply IH2.
  - split; intro H.
    + apply matches_seq_inv in H as (w1 & w2 & -> & M1 & M2).
      apply (matches_star_cons r (c :: w1) w2); [now apply IH | assumption].
    + apply matches_star_uncons in H as (w1 & w2 & -> & M1 & M2).
      constructor; [now apply IH | assumption].
Qed.

Lemma test_matches s : forall r, test r s = true <-> matches r (list_ascii_of_string s).
Proof.
  induction s as [|c s IH]; intro r; simpl.
  - apply nullable_matches.
  - rewrite IH. apply derive_matches.
Qed.

Lemma matches_class_inv accepts w :
  matches (Class accepts) w -> exists c, w = [c] /\ accepts c = true.
Proof. intro H. inversion H; subst. eauto. Qed.

Lemma matches_star_class accepts w :
  matches (Star (Class accepts)) w <-> Forall (fun c => accepts c = true) w.
Proof.
  split.
  - intro H. remember (Star (Class accepts)) as sr eqn:Er.
    induction H as [| | | | | |r w1 w2 M1 _ M2 IH2]; try discriminate.
    + constructor.
    + injection Er as ->.
      apply matches_class_inv in M1 as (c & -> & Ec).
      constructor; [assumption | now apply IH2].
  - induction 1 as [|c w Ec _ IH].
    + constructor.
    + apply (matches_star_cons (Class accepts) [c] w); [now constructor | assumption].
Qed.

Lemma matches_index_name_pattern w :
  matches index_name_pattern w <->
  exists first middle last,
    w = (first :: middle ++ [last])%list
    /\ lower_or_digit first = true
    /\ Forall (fun c => lower_digit_or_hyphen c = true) middle
    /\ lower_or_digit last = true.
Proof.
  unfold index_name_pattern. split.
  - intro H.
    apply matches_seq_inv in H as (w1 & w' & -> & M1 & M').
    apply matches_seq_inv in M' as (w2 & w3 & -> & M2 & M3).
    apply matches_class_inv in M1 as (first & -> & Hfirst).
    apply matches_class_inv in M3 as (last & -> & Hlast).
    apply matches_star_class in M2.
    now exists first, w2, last.
  - intros (first & middle & last & -> & Hfirst & Hmiddle & Hlast).
    apply (matches_seq _ _ [first] (middle ++ [last])); [now constructor |].
    apply matches_seq; [now apply matches_star_class | now constructor].
Qed.

Lemma test_index_name_pattern s :
  test index_name_pattern s = true <-> name_shaped s.
Proof.
  rewrite test_matches. apply matches_index_name_pattern.
Qed.


(** ** Index names *)

Lemma validateIndexName_string s :
  validateIndexName (JStr s) =
  if s =? "" then throw (Error "Index name is required and must be a string")
  else if (63 <? String.length s)%nat
       then throw (Error "Index name must be 63 characters or less")
       else if negb (test index_name_pattern s) && (1 <? String.length s)%nat
            then throw (Error "Index name must contain only lowercase letters, numbers, and hyphens, and cannot start or end with a hyphen")
            else ret tt.
Proof.
  unfold validateIndexName. simpl. destruct (s =? ""); reflexivity.
Qed.

Lemma validateIndexName_not_string v :
  (forall s, v <> JStr s) ->
  validateIndexName v = throw (Error "Index name is required and must be a string").
Proof.
  intro H. destruct v as [| |b|x|s| | | |]; try reflexivity.
  - unfold validateIndexName. simpl. now destruct b.
  - unfold validateIndexName. simpl. now rewrite orb_true_r.
  - now destruct (H s).
Qed.

Lemma validateIndexName_accepts_iff v :
  validateIndexName v = inr tt <->
  exists s, v = JStr s
    /\ (1 <= String.length s <= 63)%nat
    /\ (String.length s = 1%nat \/ name_shaped s).
Proof.
  split.
  - intro H. destruct v as [| | | |s| | | |];
      try (rewrite validateIndexName_not_string in H by discriminate; discriminate).
    exists s. split; [reflexivity |].
    rewrite validateIndexName_string in H.
    destruct (s =? "") eqn:Hne; [discriminate |].
    destruct (Nat.ltb_spec 63 (String.length s)); [discriminate |].
    assert (1 <= String.length s)%nat.
    { destruct s; [discriminate | simpl; lia]. }
    split; [lia |].
    destruct (test index_name_pattern s) eqn:Et.
    + right. now apply test_index_name_pattern.
    + simpl in H. destruct (Nat.ltb_spec 1 (String.length s)); [discriminate | lia].
  - intros (s & -> & [Hlow Hhigh] & Hshape).
    rewrite validateIndexName_string.
    destruct (s =? "") eqn:Hne; [apply String.eqb_eq in Hne; subst s; simpl in Hlow; lia |].
    destruct (Nat.ltb_spec 63 (String.length s)); [lia |].
    destruct Hshape as [Hone | Hshape].
    + rewrite Hone. simpl. now rewrite andb_false_r.
    + apply test_index_name_pattern in Hshape. now rewrite Hshape.
Qed.




(** ** Checks shared by the validators *)

Lemma lacks_values_array_sequence values :
  lacks_values_array values = negb (is_sequence values).
Proof.
  unfold lacks_values_array, is_sequence.
  destruct values as [| |b|x|s| | | |]; simpl; try reflexivity;
    apply orb_true_r.
Qed.

Lemma nonempty_string_check id :
  negb (truthy id) || negb (typeof id =? "string") = false <->
  exists s, id = JStr s /\ s <> "".
Proof.
  split.
  - intro H. apply orb_false_iff in H as [Ht Hs].
    destruct id as [| |b|x|s| | | |]; try discriminate.
    exists s. split; [reflexivity |]. intros ->. discriminate.
  - intros (s & -> & Hs). simpl.
    apply String.eqb_neq in Hs. now rewrite Hs.
Qed.

Lemma dimension_mismatch_false expectedDimensions len :
  dimension_mismatch expectedDimensions len = false <->
  forall expected, expectedDimensions = Some expected -> expected <> 0%Z ->
                   Z.of_nat len = expected.
Proof.
  unfold dimension_mismatch. destruct expectedDimensions as [e|].
  - split.
    + intros H expected [= <-] Hne.
      destruct (Z.eqb_spec e 0); [contradiction |].
      destruct (Z.eqb_spec (Z.of_nat len) e); [assumption | discriminate].
    + intro H. destruct (Z.eqb_spec e 0); [reflexivity |].
      rewrite (H e eq_refl n), Z.eqb_refl. reflexivity.
  - split; [discriminate | reflexivity].
Qed.

Lemma dimension_mismatch_true expected len :
  expected <> 0%Z -> Z.of_nat len <> expected ->
  dimension_mismatch (Some expected) len = true.
Proof.
  intros H0 Hne. unfold dimension_mismatch.
  apply Z.eqb_neq in H0, Hne. now rewrite H0, Hne.
Qed.

(** ** Vector validation *)

Lemma validate_vector_object expectedDimensions props :
  validate_vector expectedDimensions (JObj props) =
  let values := lookup "values" props in
  let id := lookup "id" props in
  if is_sequence values
  then
    if dimension_mismatch expectedDimensions (dimensions_of values)
    then
      id_text <- ToString id ;;
      throw (Error ("Vector " ++ id_text ++ " has "
                    ++ IntegerToString (Z.of_nat (dimensions_of values))
                    ++ " dimensions, expected " ++ expected_text expectedDimensions))
    else
      if negb (truthy id) || negb (typeof id =? "string")
      then throw (Error "All vectors must have a valid string ID")
      else ret tt
  else
    id_text <- ToString id ;;
    throw (Error ("Vector " ++ id_text ++ " must have a 'values' array")).
Proof.
  unfold validate_vector. cbn [read bind ret].
  rewrite lacks_values_array_sequence.
  now destruct (is_sequence (lookup "values" props)).
Qed.

Lemma validate_vector_accepts expectedDimensions vector :
  validate_vector expectedDimensions vector = inr tt <->
  well_shaped expectedDimensions vector.
Proof.
  unfold well_shaped. split.
  - intro H. destruct vector as [| | | | | | | |props];
      try (unfold validate_vector in H; simpl in H; discriminate).
    rewrite validate_vector_object in H. cbv zeta in H.
    destruct (is_sequence (lookup "values" props)) eqn:Hseq.
    2:{ destruct (ToString (lookup "id" props)); discriminate. }
    destruct (dimension_mismatch expectedDimensions
                (dimensions_of (lookup "values" props))) eqn:Hdim.
    1:{ destruct (ToString (lookup "id" props)); discriminate. }
    destruct (negb (truthy (lookup "id" props))
              || negb (typeof (lookup "id" props) =? "string")) eqn:Hid;
      [discriminate |].
    apply nonempty_string_check in Hid as (id & Hid & Hne).
    exists props, id. repeat split; try assumption.
    now apply dimension_mismatch_false.
  - intros (props & id & -> & Hseq & Hdim & Hid & Hne).
    rewrite validate_vector_object. cbv zeta. rewrite Hseq.
    apply dimension_mismatch_false in Hdim. rewrite Hdim.
    rewrite Hid. simpl. apply String.eqb_neq in Hne. now rewrite Hne.
Qed.

Lemma validate_each_accepts expectedDimensions vectors :
  validate_each expectedDimensions vectors = inr tt <->
  Forall (well_shaped expectedDimensions) vectors.
Proof.
  induction vectors as [|vector rest IH]; simpl.
  - split; [constructor | reflexivity].
  - split.
    + intro H. destruct (validate_vector expectedDimensions vector) as [e|[]] eqn:Hv;
        [discriminate |].
      constructor; [now apply validate_vector_accepts | now apply IH].
    + intro H. inversion H as [|? ? Hv Hrest]; subst.
      apply validate_vector_accepts in Hv. rewrite Hv. simpl. now apply IH.
Qed.

Lemma validate_each_first_fault expectedDimensions good bad rest e :
  Forall (well_shaped expectedDimensions) good ->
  validate_vector expectedDimensions bad = inl e ->
  validate_each expectedDimensions (good ++ bad :: rest) = inl e.
Proof.
  intros Hgood Hbad. induction Hgood as [|vector good Hv _ IH]; simpl.
  - now rewrite Hbad.
  - apply validate_vector_accepts in Hv. now rewrite Hv.
Qed.

(** C4, as the code has it.  [validateVectorDimensions] succeeds exactly when
    every vector is an object whose [values] is an array or a
    [Float32Array]/[Float64Array] (its elements are not inspected), of the
    expected length when a non-zero expected dimensionality is given, and whose
    [id] is a non-empty string.  At the first vector that is not, if it is
    an object: a missing or non-sequence [values] gives the error
    "Vector <id> must have a 'values' array"; otherwise a length other than
    the non-zero expected dimensionality gives
    "Vector <id> has <n> dimensions, expected <expected>", the expected
    dimensionality printed as the number it is (in full below 10^21); otherwise
    an [id]
    that is missing or not a non-empty string gives
    "All vectors must have a valid string ID". *)
Theorem C4_validateVectorDimensions_verdicts
  (vectors : list JsValue) (expectedDimensions : option Z) :
  (validateVectorDimensions (JArr vectors) expectedDimensions = inr tt <->
   Forall (well_shaped expectedDimensions) vectors)
  /\ forall good props rest,
       vectors = (good ++ JObj props :: rest)%list ->
       Forall (well_shaped expectedDimensions) good ->
       let values := lookup "values" props in
       let id := lookup "id" props in
       (forall id_text,
          is_sequence values = false -> ToString id = inr id_text ->
          validateVectorDimensions (JArr vectors) expectedDimensions
          = inl (Error ("Vector " ++ id_text ++ " must have a 'values' array")))
       /\ (forall id_text expected,
             is_sequence values = true -> ToString id = inr id_text ->
             expectedDimensions = Some expected -> expected <> 0%Z ->
             Z.of_nat (dimensions_of values) <> expected ->
             validateVectorDimensions (JArr vectors) expectedDimensions
             = inl (Error ("Vector " ++ id_text ++ " has "
                           ++ IntegerToString (Z.of_nat (dimensions_of values))
                           ++ " dimensions, expected "
                           ++ NumberToString (number_of_Z expected))))
       /\ (is_sequence values = true ->
           dimension_mismatch expectedDimensions (dimensions_of values) = false ->
           (forall s, id = JStr s -> s = "") ->
           validateVectorDimensions (JArr vectors) expectedDimensions
           = inl (Error "All vectors must have a valid string ID")).
Proof.
  split; [apply validate_each_accepts |].
  intros good props rest -> Hgood values id.
  unfold validateVectorDimensions. cbn [iterate bind ret].
  repeat split.
  - intros id_text Hseq Hid. apply validate_each_first_fault; [assumption |].
    rewrite validate_vector_object. cbv zeta. fold values id.
    now rewrite Hseq, Hid.
  - intros id_text expected Hseq Hid -> Hne Hlen.
    apply validate_each_first_fault; [assumption |].
    rewrite validate_vector_object. cbv zeta. fold values id.
    now rewrite Hseq, (dimension_mismatch_true _ _ Hne Hlen), Hid.
  - intros Hseq Hdim Hid. apply validate_each_first_fault; [assumption |].
    rewrite validate_vector_object. cbv zeta. fold values id.
    rewrite Hseq, Hdim.
    destruct (negb (truthy id) || negb (typeof id =? "string")) eqn:Hcheck;
      [reflexivity |].
    apply nonempty_string_check in Hcheck as (s & Hs & Hne).
    now destruct (Hne (Hid s Hs)).
Qed.

(** C4 at concrete vectors: two well-shaped vectors pass; a third whose
    [values] is missing, has the wrong length, or whose [id] is a number, is
    reported with the message of its kind; and an expected dimensionality of
    10^21 is printed with an exponent. *)
Lemma C4_verdicts_witness :
  validateVectorDimensions
    (JArr [vector_v1 [JNum 0.1; JNum 0.2; JNum 0.3]; vector_v1 [JNum 1; JNum 2; JNum 3]])
    (Some 3%Z) = inr tt
  /\ validateVectorDimensions
       (JArr [vector_v1 [JNum 1; JNum 2; JNum 3]; JObj [("id", JStr "v2")]])
       (Some 3%Z)
     = inl (Error "Vector v2 must have a 'values' array")
  /\ validateVectorDimensions
       (JArr [vector_v1 [JNum 1; JNum 2; JNum 3]; vector_v1 [JNum 0.1; JNum 0.2]])
       (Some 3%Z)
     = inl (Error "Vector v1 has 2 dimensions, expected 3")
  /\ validateVectorDimensions
       (JArr [vector_v1 [JNum 1; JNum 2; JNum 3];
              JObj [("id", JNum 7); ("values", JArr [JNum 1; JNum 2; JNum 3])]])
       (Some 3%Z)
     = inl (Error "All vectors must have a valid string ID")
  /\ validateVectorDimensions
       (JArr [vector_v1 [JNum 0.1; JNum 0.2]]) (Some 1000000000000000000000%Z)
     = inl (Error "Vector v1 has 2 dimensions, expected 1e+21").
Proof.
  assert (Hgood : Forall (well_shaped (Some 3%Z)) [vector_v1 [JNum 1; JNum 2; JNum 3]]).
  { repeat constructor. exists [("id", JStr "v1"); ("values", JArr [JNum 1; JNum 2; JNum 3])], "v1".
    repeat split; try reflexivity; try discriminate.
    intros expected [= <-] _. reflexivity. }
  split; [| split; [| split; [| split]]].
  - apply (C4_validateVectorDimensions_verdicts _ (Some 3%Z)).
    repeat constructor.
    + exists [("id", JStr "v1"); ("values", JArr [JNum 0.1; JNum 0.2; JNum 0.3])], "v1".
      repeat split; try reflexivity; try discriminate.
      intros expected [= <-] _. reflexivity.
    + exists [("id", JStr "v1"); ("values", JArr [JNum 1; JNum 2; JNum 3])], "v1".
      repeat split; try reflexivity; try discriminate.
      intros expected [= <-] _. reflexivity.
  - destruct (proj2 (C4_validateVectorDimensions_verdicts _ (Some 3%Z))
                [vector_v1 [JNum 1; JNum 2; JNum 3]] [("id", JStr "v2")] [] eq_refl Hgood)
      as (Hmissing & _ & _).
    apply (Hmissing "v2"); reflexivity.
  - destruct (proj2 (C4_validateVectorDimensions_verdicts _ (Some 3%Z))
                [vector_v1 [JNum 1; JNum 2; JNum 3]]
                [("id", JStr "v1"); ("values", JArr [JNum 0.1; JNum 0.2])] [] eq_refl Hgood)
      as (_ & Hlength & _).
    apply (Hlength "v1" 3%Z); try reflexivity; simpl; lia.
  - destruct (proj2 (C4_validateVectorDimensions_verdicts _ (Some 3%Z))
                [vector_v1 [JNum 1; JNum 2; JNum 3]]
                [("id", JNum 7); ("values", JArr [JNum 1; JNum 2; JNum 3])] [] eq_refl Hgood)
      as (_ & _ & Hid).
    apply Hid; try reflexivity. discriminate.
  - destruct (proj2 (C4_validateVectorDimensions_verdicts _ (Some 1000000000000000000000%Z))
                [] [("id", JStr "v1"); ("values", JArr [JNum 0.1; JNum 0.2])] [] eq_refl
                (Forall_nil _))
      as (_ & Hlength & _).
    apply (Hlength "v1" 1000000000000000000000%Z); try reflexivity; simpl; lia.
Defined.

(** C4, as stated, fails on a vector whose [values] holds strings: the
    elements of [values] are never inspected, so it passes. *)
Lemma C4_non_numeric_values_pass :
  validateVectorDimensions (JArr [vector_v1 [JStr "a"; JStr "b"]]) None = inr tt
  /\ validateVectorDimensions (JArr [vector_v1 [JStr "a"; JStr "b"]]) (Some 2%Z) = inr tt
  /\ typeof (JStr "a") <> "number".
Proof. repeat split; discriminate. Qed.

(** ** The formatter *)

Lemma mapM_indexed_map {A B : Type} (f : A -> nat -> Result B) (g : A -> B) l :
  Forall (fun a => forall index, f a index = inr (g a)) l ->
  forall index, mapM_indexed f index l = inr (map g l).
Proof.
  induction 1 as [|a l Ha _ IH]; intro index; simpl.
  - reflexivity.
  - now rewrite Ha, IH.
Qed.

Lemma mapM_indexed_first_fault {A B : Type} (f : A -> nat -> Result B) (g : A -> B)
  good bad rest e :
  Forall (fun a => forall index, f a index = inr (g a)) good ->
  forall index,
    f bad (index + length good) = inl e ->
    mapM_indexed f index (good ++ bad :: rest) = inl e.
Proof.
  induction 1 as [|a good Ha _ IH]; intros index Hbad; simpl in *.
  - rewrite Nat.add_0_r in Hbad. now rewrite Hbad.
  - rewrite Ha. simpl. rewrite (IH (S index)); [reflexivity |].
    now rewrite Nat.add_succ_comm.
Qed.

Lemma format_vector_well_formed vector index :
  well_formed_raw vector -> format_vector vector index = inr (expected_format vector).
Proof.
  intros (props & id & -> & Hid & Hne & Hseq & Hnamespace).
  unfold format_vector, expected_format. cbn [typeof truthy read spread bind ret negb].
  rewrite Hid, lacks_values_array_sequence, Hseq.
  apply String.eqb_neq in Hne. simpl. rewrite Hne. simpl.
  destruct Hnamespace as [-> | (namespace & ->)]; simpl.
  - now destruct (truthy (lookup "metadata" props)).
  - destruct (truthy (lookup "metadata" props)), (namespace =? ""); reflexivity.
Qed.

Lemma format_vector_object props index :
  format_vector (JObj props) index =
  if negb (truthy (lookup "id" props))
  then throw (Error ("Vector at index " ++ index_text index ++ " must have an 'id' field"))
  else
    if negb (is_sequence (lookup "values" props))
    then throw (Error ("Vector at index " ++ index_text index ++ " must have a 'values' array"))
    else
      id_text <- ToString (lookup "id" props) ;;
      let formatted := [("id", JStr id_text); ("values", lookup "values" props)] in
      let formatted :=
        if truthy (lookup "metadata" props)
        then assign "metadata" (lookup "metadata" props) formatted else formatted in
      if truthy (lookup "namespace" props)
      then
        namespace_text <- ToString (lookup "namespace" props) ;;
        ret (JObj (assign "namespace" (JStr namespace_text) formatted))
      else ret (JObj formatted).
Proof.
  unfold format_vector. cbn [typeof truthy read bind ret negb].
  rewrite lacks_values_array_sequence. reflexivity.
Qed.

(** C7, as the code has it.  On a sequence of well-formed raw vectors (each
    an object with a non-empty string [id], an array or typed array as [values]
    whose elements are not inspected, and a [namespace] that is a string when
    there is one) [formatVectors] returns a sequence of the same length and
    order, each element with the input's [id] and [values], its [metadata]
    when that is truthy and its [namespace] when that is non-empty, and
    nothing else.  When well-formed vectors are followed by an element that is
    not an object, or is an object with a falsy [id], or one with a truthy [id]
    whose [values] is missing or not a sequence, it fails with an [Error] that
    names the position of that element. *)
Theorem C7_formatVectors_behaviour (vectors : list JsValue) :
  (Forall well_formed_raw vectors ->
   exists formatted,
     formatVectors vectors = inr formatted
     /\ formatted = map expected_format vectors
     /\ length formatted = length vectors)
  /\ forall good bad rest,
       vectors = (good ++ bad :: rest)%list ->
       Forall well_formed_raw good ->
       let position := index_text (length good) in
       ((typeof bad <> "object" \/ truthy bad = false) ->
        formatVectors vectors
        = inl (Error ("Vector at index " ++ position ++ " must be an object")))
       /\ (forall props,
             bad = JObj props -> truthy (lookup "id" props) = false ->
             formatVectors vectors
             = inl (Error ("Vector at index " ++ position ++ " must have an 'id' field")))
       /\ (forall props,
             bad = JObj props -> truthy (lookup "id" props) = true ->
             is_sequence (lookup "values" props) = false ->
             formatVectors vectors
             = inl (Error ("Vector at index " ++ position ++ " must have a 'values' array"))).
Proof.
  assert (Hformat : forall l, Forall well_formed_raw l ->
            Forall (fun v => forall index, format_vector v index = inr (expected_format v)) l).
  { intros l Hl. eapply Forall_impl; [| exact Hl].
    intros v Hv index. now apply format_vector_well_formed. }
  split.
  - intro Hall. exists (map expected_format vectors).
    split; [| split; [reflexivity | apply length_map]].
    unfold formatVectors. now apply mapM_indexed_map, Hformat.
  - intros good bad rest -> Hgood position. unfold formatVectors.
    repeat split.
    + intro Hbad.
      apply (mapM_indexed_first_fault _ expected_format); [now apply Hformat |].
      unfold format_vector. fold position.
      destruct Hbad as [Hbad | Hbad].
      * destruct (String.eqb_spec (typeof bad) "object"); [contradiction | reflexivity].
      * rewrite Hbad. now rewrite orb_true_r.
    + intros props -> Hid.
      apply (mapM_indexed_first_fault _ expected_format); [now apply Hformat |].
      rewrite format_vector_object, Hid. reflexivity.
    + intros props -> Hid Hseq.
      apply (mapM_indexed_first_fault _ expected_format); [now apply Hformat |].
      rewrite format_vector_object, Hid, Hseq. reflexivity.
Qed.

(** C7 at concrete vectors: a vector with metadata and a namespace and one
    with neither are formatted in order; a number after a well-formed vector
    is reported at index 1. *)
Lemma C7_behaviour_witness :
  formatVectors
    [JObj [("namespace", JStr "docs"); ("values", JArr [JNum 0.1; JNum 0.2]);
           ("id", JStr "a"); ("metadata", JObj [("lang", JStr "en")]);
           ("score", JNum 1)];
     vector_v1 [JNum 1]]
  = inr [JObj [("id", JStr "a"); ("values", JArr [JNum 0.1; JNum 0.2]);
               ("metadata", JObj [("lang", JStr "en")]); ("namespace", JStr "docs")];
         vector_v1 [JNum 1]]
  /\ formatVectors [vector_v1 [JNum 1]; JNum 3]
     = inl (Error "Vector at index 1 must be an object").
Proof.
  assert (Hv1 : well_formed_raw (vector_v1 [JNum 1])).
  { exists [("id", JStr "v1"); ("values", JArr [JNum 1])], "v1".
    repeat split; try reflexivity; try discriminate. now left. }
  assert (Ha : well_formed_raw
                 (JObj [("namespace", JStr "docs"); ("values", JArr [JNum 0.1; JNum 0.2]);
                        ("id", JStr "a"); ("metadata", JObj [("lang", JStr "en")]);
                        ("score", JNum 1)])).
  { eexists _, "a". repeat split; try reflexivity; try discriminate.
    right. now exists "docs". }
  split.
  - destruct (proj1 (C7_formatVectors_behaviour _)
                (Forall_cons _ Ha (Forall_cons _ Hv1 (Forall_nil _))))
      as (formatted & Hrun & -> & _).
    exact Hrun.
  - destruct (proj2 (C7_formatVectors_behaviour _) [vector_v1 [JNum 1]] (JNum 3) []
                eq_refl (Forall_cons _ Hv1 (Forall_nil _)))
      as (Hobject & _ & _).
    apply Hobject. left. discriminate.
Defined.

(** C7, as stated, fails in three ways: a vector whose [values] holds a
    string is formatted, not rejected; a vector whose string [id] is empty is
    rejected; and a [metadata] or [namespace] that is present but falsy is not
    copied. *)
Lemma C7_claim_fails :
  formatVectors [vector_v1 [JStr "x"]] = inr [vector_v1 [JStr "x"]]
  /\ formatVectors [JObj [("id", JStr ""); ("values", JArr [JNum 1])]]
     = inl (Error "Vector at index 0 must have an 'id' field")
  /\ formatVectors [JObj [("id", JStr "v1"); ("values", JArr [JNum 1]);
                          ("metadata", JNull); ("namespace", JStr "")]]
     = inr [vector_v1 [JNum 1]].
Proof. repeat split. Qed.

(** ** The batcher *)

Section Batches.
Context {A : Type}.
Variable vectors : list A.
Variable batchSize : Z.
Open Scope Z_scope.

Lemma slice_forward c :
  0 <= c -> 1 <= batchSize ->
  slice vectors c (c + batchSize)
  = firstn (Z.to_nat batchSize) (skipn (Z.to_nat c) vectors).
Proof.
  intros Hc Hn. unfold slice, relative_index.
  destruct (Z.ltb_spec c 0); [lia |].
  destruct (Z.ltb_spec (c + batchSize) 0); [lia |].
  destruct (Z_le_gt_dec (c + batchSize) (Z.of_nat (length vectors))) as [Hin | Hout].
  - rewrite !Z.min_l by lia. f_equal. lia.
  - rewrite (Z.min_r (c + batchSize)) by lia. rewrite Nat2Z.id.
    destruct (Z_le_gt_dec c (Z.of_nat (length vectors))) as [Hc' | Hc'].
    + rewrite Z.min_l by lia.
      rewrite !firstn_all2; try reflexivity; rewrite length_skipn; lia.
    + rewrite Z.min_r by lia. rewrite Nat2Z.id, Nat.sub_diag.
      rewrite !skipn_all2 by lia. now rewrite !firstn_nil.
Qed.

Lemma ceil_div_step len :
  1 <= batchSize -> 1 <= len ->
  ceil_div len batchSize = 1 + ceil_div (Z.max (len - batchSize) 0) batchSize.
Proof.
  intros Hn Hlen. unfold ceil_div.
  replace (len + batchSize - 1) with (len - 1 + 1 * batchSize) by lia.
  rewrite Z.div_add by lia.
  destruct (Z_le_gt_dec batchSize len).
  - rewrite Z.max_l by lia.
    replace (len - batchSize + batchSize - 1) with (len - 1) by lia. lia.
  - rewrite Z.max_r by lia.
    rewrite !Z.div_small by lia. reflexivity.
Qed.

Lemma batch_loop_runs :
  1 <= batchSize ->
  forall (m : nat) c done,
    0 <= c -> Z.of_nat (length vectors) - c <= Z.of_nat m ->
    exists chunks,
      (forall fuel, (m < fuel)%nat ->
         batch_loop fuel vectors batchSize {| counter := c; batches := done |}
         = Some (done ++ chunks)%list)
      /\ concat chunks = skipn (Z.to_nat c) vectors
      /\ Forall (fun chunk => Z.of_nat (length chunk) <= batchSize) chunks
      /\ Z.of_nat (length chunks)
         = ceil_div (Z.max (Z.of_nat (length vectors) - c) 0) batchSize.
Proof.
  intros Hn m. induction m as [|m IH]; intros c done Hc Hm.
  - exists []. repeat split.
    + intros [|fuel] Hfuel; [lia |]. simpl. unfold batch_continues. simpl.
      destruct (Z.ltb_spec c (Z.of_nat (length vectors))); [lia |].
      now rewrite app_nil_r.
    + simpl. rewrite skipn_all2; [reflexivity | lia].
    + constructor.
    + rewrite Z.max_r by lia. unfold ceil_div. simpl.
      rewrite Z.div_small; lia.
  - destruct (Z_lt_le_dec c (Z.of_nat (length vectors))) as [Hlt | Hge].
    + set (chunk := slice vectors c (c + batchSize)).
      destruct (IH (c + batchSize) (done ++ [chunk])%list) as (chunks & Hrun & Hcat & Hlen & Hcount);
        [lia | lia |].
      exists (chunk :: chunks). repeat split.
      * intros [|fuel] Hfuel; [lia |]. simpl. unfold batch_continues. simpl.
        destruct (Z.ltb_spec c (Z.of_nat (length vectors))); [| lia].
        unfold batch_step. simpl. fold chunk.
        rewrite Hrun by lia. now rewrite <- app_assoc.
      * simpl. rewrite Hcat. unfold chunk. rewrite slice_forward by lia.
        rewrite Z2Nat.inj_add by lia.
        rewrite (Nat.add_comm (Z.to_nat c)), <- skipn_skipn.
        apply firstn_skipn.
      * constructor; [| assumption].
        unfold chunk. rewrite slice_forward by lia.
        pose proof (firstn_le_length (Z.to_nat batchSize) (skipn (Z.to_nat c) vectors)).
        lia.
      * simpl length. rewrite Nat2Z.inj_succ, Hcount.
        rewrite (Z.max_l (Z.of_nat (length vectors) - c)) by lia.
        rewrite (ceil_div_step (Z.of_nat (length vectors) - c)) by lia.
        replace (Z.of_nat (length vectors) - (c + batchSize))
          with (Z.of_nat (length vectors) - c - batchSize) by lia.
        lia.
    + exists []. repeat split.
      * intros [|fuel] Hfuel; [lia |]. simpl. unfold batch_continues. simpl.
        destruct (Z.ltb_spec c (Z.of_nat (length vectors))); [lia |].
        now rewrite app_nil_r.
      * simpl. rewrite skipn_all2; [reflexivity | lia].
      * constructor.
      * rewrite Z.max_r by lia. unfold ceil_div. simpl.
        rewrite Z.div_small; lia.
Qed.

Lemma batch_loop_stuck :
  batchSize <= 0 -> vectors <> [] ->
  forall fuel st, counter st <= 0 -> batch_loop fuel vectors batchSize st = None.
Proof.
  intros Hn Hne. induction fuel as [|fuel IH]; intros st Hst; simpl.
  - reflexivity.
  - unfold batch_continues.
    destruct (Z.ltb_spec (counter st) (Z.of_nat (length vectors))) as [_ | Hge].
    + apply IH. simpl. lia.
    + destruct vectors; [contradiction | simpl in Hge; lia].
Qed.

End Batches.

(** C6: for a batch size of at least 1, [batchVectors] returns (whenever the
    loop is given more steps than there are vectors) chunks whose
    concatenation in order is the input, each of at most [batchSize] elements,
    [ceil(len / batchSize)] of them; and without a batch size it uses 1000. *)
Theorem C6_batchVectors_partition {A : Type} (vectors : list A) (batchSize : Z) :
  (1 <= batchSize)%Z ->
  exists chunks,
    (forall fuel, length vectors < fuel ->
       batchVectors fuel vectors (Some batchSize) = Some chunks)
    /\ concat chunks = vectors
    /\ Forall (fun chunk => (Z.of_nat (length chunk) <= batchSize)%Z) chunks
    /\ Z.of_nat (length chunks) = ceil_div (Z.of_nat (length vectors)) batchSize
    /\ forall fuel,
         batchVectors fuel vectors None = batchVectors fuel vectors (Some 1000%Z).
Proof.
  intro Hn.
  destruct (batch_loop_runs vectors batchSize Hn (length vectors) 0%Z [])
    as (chunks & Hrun & Hcat & Hlen & Hcount); [lia | lia |].
  exists chunks. repeat split; try assumption.
  - rewrite Z.sub_0_r, Z.max_l in Hcount by lia. exact Hcount.
Qed.

(** C6 at five vectors and batch size 2. *)
Lemma C6_partition_witness :
  exists chunks,
    (forall fuel, length [1; 2; 3; 4; 5] < fuel ->
       batchVectors fuel [1; 2; 3; 4; 5] (Some 2%Z) = Some chunks)
    /\ concat chunks = [1; 2; 3; 4; 5]
    /\ Forall (fun chunk => (Z.of_nat (length chunk) <= 2)%Z) chunks
    /\ Z.of_nat (length chunks) = ceil_div (Z.of_nat (length [1; 2; 3; 4; 5])) 2
    /\ forall fuel,
         batchVectors fuel [1; 2; 3; 4; 5] None
         = batchVectors fuel [1; 2; 3; 4; 5] (Some 1000%Z).
Proof. apply (C6_batchVectors_partition [1; 2; 3; 4; 5] 2%Z). lia. Defined.

(** C10: [batchVectors] terminates exactly when the batch size is at least 1
    or there is no vector.  Each turn of the loop adds [batchSize] to the
    counter, so a positive batch size makes it grow, and the call returns;
    with batch size 0 the counter stays where it is, and on a non-empty list
    the loop is still running after any number of steps. *)
Theorem C10_batchVectors_termination {A : Type} (vectors : list A) (batchSize : Z) :
  ((exists fuel, batchVectors fuel vectors (Some batchSize) <> None)
   <-> ((1 <= batchSize)%Z \/ vectors = []))
  /\ (forall st,
        counter (batch_step vectors batchSize st) = (counter st + batchSize)%Z)
  /\ ((1 <= batchSize)%Z ->
      (forall st, (counter st < counter (batch_step vectors batchSize st))%Z)
      /\ exists chunks,
           batchVectors (S (length vectors)) vectors (Some batchSize) = Some chunks)
  /\ (forall st, counter (batch_step vectors 0%Z st) = counter st)
  /\ (vectors <> [] -> forall fuel, batchVectors fuel vectors (Some 0%Z) = None).
Proof.
  split; [| split; [| split; [| split]]].
  - split.
    + intros (fuel & Hfuel).
      destruct (Z_le_gt_dec 1 batchSize) as [Hn | Hn]; [now left |].
      destruct vectors as [|a rest] eqn:Ev; [now right |].
      exfalso. apply Hfuel. unfold batchVectors.
      apply batch_loop_stuck; simpl; [lia | discriminate | lia].
    + intros [Hn | ->].
      * destruct (batch_loop_runs vectors batchSize Hn (length vectors) 0%Z [])
          as (chunks & Hrun & _); [lia | lia |].
        exists (S (length vectors)). unfold batchVectors.
        rewrite Hrun by lia. discriminate.
      * exists 1%nat. discriminate.
  - reflexivity.
  - intro Hn. split.
    + intro st. simpl. lia.
    + destruct (batch_loop_runs vectors batchSize Hn (length vectors) 0%Z [])
        as (chunks & Hrun & _); [lia | lia |].
      exists chunks. apply Hrun. lia.
  - intro st. simpl. lia.
  - intros Hne fuel. unfold batchVectors.
    apply batch_loop_stuck; simpl; [lia | assumption | lia].
Qed.

(** ** The request executor *)

Lemma append_empty_r (s : string) : s ++ "" = s.
Proof. induction s as [|c s IH]; simpl; [reflexivity | now rewrite IH]. Qed.

Lemma join_strings messages separator :
  join (map JStr messages) separator = inr (String.concat separator messages).
Proof.
  unfold join.
  assert (H : mapM (join_element ToString) (map JStr messages) = inr messages).
  { induction messages as [|message rest IH]; simpl; [reflexivity |].
    simpl in IH. now rewrite IH. }
  now rewrite H.
Qed.

Lemma read_messages errors messages :
  Forall2 (fun error message => read error "message" = inr (JStr message)) errors messages ->
  mapM (fun error => read error "message") errors = inr (map JStr messages).
Proof.
  induction 1 as [|error message errors messages He _ IH]; simpl; [reflexivity |].
  simpl in IH. now rewrite He, IH.
Qed.

Section Executor.
Variable StringToNumber : string -> float.
Variable describe : string -> string.

Lemma read_response_failure node itemIndex props errors messages :
  lookup "success" props = JBool false ->
  or_else (lookup "errors" props) (JArr []) = JArr errors ->
  Forall2 (fun error message => read error "message" = inr (JStr message)) errors messages ->
  read_response describe node itemIndex (JObj props)
  = inl (NodeOperationError node
           (describe ("Cloudflare API error: " ++ String.concat ", " messages)) itemIndex).
Proof.
  intros Hsuccess Herrors Hmessages.
  unfold read_response. cbn [read bind ret]. rewrite Hsuccess. cbn [is_false].
  rewrite Herrors. unfold error_messages.
  rewrite (read_messages _ _ Hmessages). cbn [bind].
  now rewrite join_strings.
Qed.

Lemma read_response_success node itemIndex props :
  is_false (lookup "success" props) = false ->
  read_response describe node itemIndex (JObj props)
  = inr (or_else (lookup "result" props) (JObj props)).
Proof.
  intro Hsuccess. unfold read_response. cbn [read bind ret]. now rewrite Hsuccess.
Qed.

(** C1, as the code has it.  When the helper answers with an envelope whose
    [success] is [false], [executeRequest] fails with the [NodeOperationError]
    built from "Cloudflare API error: " followed by the messages of the
    entries of [errors], joined by ", "; the message of that error is what the
    library's constructor makes of this text, which need not contain it.
    When [success] is not [false],
    it returns the envelope's [result] if that is truthy, and the whole
    response body if [result] is absent or falsy ([null], [false], [0], [NaN]
    or the empty string). *)
Theorem C1_executeRequest_envelope
  (context : IExecuteFunctions) (config : VectorizeConnectionConfig)
  (endpoint : string) (method : IHttpRequestMethods) (body : JsValue) (itemIndex : Z)
  (props : list (string * JsValue)) :
  httpRequestWithAuthentication context "cloudflareVectorizeApi"
    (http_options config endpoint method body) = inr (JObj props) ->
  let run := executeRequest StringToNumber describe context config endpoint method body itemIndex in
  (forall errors messages,
     lookup "success" props = JBool false ->
     or_else (lookup "errors" props) (JArr []) = JArr errors ->
     Forall2 (fun error message => read error "message" = inr (JStr message))
             errors messages ->
     outcome run
     = inl (NodeOperationError (getNode context)
              (describe ("Cloudflare API error: " ++ String.concat ", " messages))
              itemIndex))
  /\ (is_false (lookup "success" props) = false ->
      outcome run
      = inr (if truthy (lookup "result" props)
             then lookup "result" props else JObj props)).
Proof.
  intros Hanswer run. subst run. unfold executeRequest. cbn [outcome].
  rewrite Hanswer. cbn [bind]. split.
  - intros errors messages Hsuccess Herrors Hmessages.
    now rewrite (read_response_failure _ _ _ _ _ Hsuccess Herrors Hmessages).
  - intro Hsuccess. now rewrite (read_response_success _ _ _ Hsuccess).
Qed.

Lemma getIndex_valid context config name itemIndex :
  validateIndexName (JStr name) = inr tt ->
  getIndex StringToNumber describe context config (JStr name) itemIndex
  = executeRequest StringToNumber describe context config ("indexes/" ++ name) GET JUndefined itemIndex.
Proof.
  intro Hname. unfold getIndex, await, sync. cbn [outcome requests].
  rewrite Hname. cbn [index_endpoint ToString bind ret app].
  now rewrite append_empty_r.
Qed.

End Executor.

(** C1 at the envelope of scenario C: with a constructor that keeps the
    message, [getIndex("missing")] fails with the message "Cloudflare API
    error: index not found"; and at a successful envelope the result is
    returned. *)
Lemma C1_envelope_witness :
  outcome (getIndex not_consulted message_kept (mock (inr not_found_envelope)) example_config
             (JStr "missing") 0)
  = inl (NodeOperationError "Cloudflare Vectorize"
           "Cloudflare API error: index not found" 0)
  /\ outcome (executeRequest not_consulted message_kept (mock (inr mutation_envelope)) example_config
                "indexes/docs-1/insert" POST JUndefined 0)
     = inr (JObj [("mutationId", JStr "m1")]).
Proof.
  split.
  - rewrite getIndex_valid by reflexivity.
    apply (proj1 (C1_executeRequest_envelope not_consulted message_kept
                    (mock (inr not_found_envelope)) example_config
                    "indexes/missing" GET JUndefined 0 _ eq_refl)
             [JObj [("code", JNum 1003); ("message", JStr "index not found")]]
             ["index not found"]);
      [reflexivity | reflexivity | repeat constructor].
  - apply (proj2 (C1_executeRequest_envelope not_consulted message_kept
                    (mock (inr mutation_envelope)) example_config
                    "indexes/docs-1/insert" POST JUndefined 0 _ eq_refl)).
    reflexivity.
Defined.

(** C1, as stated, fails on an envelope whose [result] field is [null]: the
    field exists, and [executeRequest] returns the whole response body, not
    the field. *)
Lemma C1_null_result_returns_body :
  let envelope := JObj [("success", JBool true); ("result", JNull)] in
  has_key "result" (spread envelope) = true
  /\ outcome (executeRequest not_consulted message_kept (mock (inr envelope)) example_config
                "indexes/docs-1" DELETE JUndefined 0)
     = inr envelope
  /\ envelope <> lookup "result" (spread envelope).
Proof. repeat split. discriminate. Qed.

(** ** The operations *)

Lemma lookup_assign_same key v props : lookup key (assign key v props) = v.
Proof.
  induction props as [|[k old] rest IH]; simpl.
  - now rewrite String.eqb_refl.
  - destruct (k =? key) eqn:Ek; simpl; now rewrite Ek.
Qed.

Lemma lookup_assign_other key other v props :
  other <> key -> lookup other (assign key v props) = lookup other props.
Proof.
  intro Hne. induction props as [|[k old] rest IH]; simpl.
  - apply not_eq_sym in Hne. apply String.eqb_neq in Hne. now rewrite Hne.
  - destruct (k =? key) eqn:Ek; simpl.
    + apply String.eqb_eq in Ek. subst k.
      apply not_eq_sym in Hne. apply String.eqb_neq in Hne. now rewrite Hne.
    + now rewrite IH.
Qed.

Section Operations.
Variable StringToNumber : string -> float.
Variable describe : string -> string.

(** C2, as the code has it.  [insertVectors] takes no expected
    dimensionality and validates without one: on index "docs-1" the request
    with the vector [{id: "v1", values: [0.1, 0.2, 0.3]}] and the request with
    [values: [0.1, 0.2]] both pass validation and are both posted to
    [indexes/docs-1/insert], the call settling as that request does (with the
    service result when the service answers with one).  The length is
    compared only by [validateVectorDimensions] called with an expected
    dimensionality: with 3 it accepts the first vector and rejects the second
    with "Vector v1 has 2 dimensions, expected 3". *)
Theorem C2_insertVectors_dimensions
  (context : IExecuteFunctions) (config : VectorizeConnectionConfig) (itemIndex : Z) :
  let three := JObj [("vectors", JArr [vector_v1 [JNum 0.1; JNum 0.2; JNum 0.3]])] in
  let two := JObj [("vectors", JArr [vector_v1 [JNum 0.1; JNum 0.2]])] in
  insertVectors StringToNumber describe context config (JStr "docs-1") three itemIndex
  = executeRequest StringToNumber describe context config "indexes/docs-1/insert" POST three itemIndex
  /\ insertVectors StringToNumber describe context config (JStr "docs-1") two itemIndex
     = executeRequest StringToNumber describe context config "indexes/docs-1/insert" POST two itemIndex
  /\ outcome (insertVectors StringToNumber describe (mock (inr mutation_envelope)) config
                (JStr "docs-1") three itemIndex)
     = inr (JObj [("mutationId", JStr "m1")])
  /\ validateVectorDimensions (JArr [vector_v1 [JNum 0.1; JNum 0.2; JNum 0.3]]) (Some 3%Z)
     = inr tt
  /\ validateVectorDimensions (JArr [vector_v1 [JNum 0.1; JNum 0.2]]) (Some 3%Z)
     = inl (Error "Vector v1 has 2 dimensions, expected 3").
Proof. repeat split. Qed.

(** C5: for an index name that passes [validateIndexName] and a request whose
    [id] is a non-empty string, [queryVectorById] hands the helper exactly one
    request: a POST to [indexes/{name}/query] whose body is the request with
    its [vector] field set to the id (a string) and every other field as it
    was; the call settles as that request does. *)
Theorem C5_queryVectorById_request
  (context : IExecuteFunctions) (config : VectorizeConnectionConfig)
  (name : string) (props : list (string * JsValue)) (id : string) (itemIndex : Z) :
  validateIndexName (JStr name) = inr tt ->
  lookup "id" props = JStr id ->
  id <> "" ->
  let run := queryVectorById StringToNumber describe context config (JStr name) (JObj props) itemIndex in
  let sent := assign "vector" (JStr id) props in
  requests run = [http_options config ("indexes/" ++ name ++ "/query") POST (JObj sent)]
  /\ url (http_options config ("indexes/" ++ name ++ "/query") POST (JObj sent))
     = apiEndpoint config ++ "/accounts/" ++ accountId config
       ++ "/vectorize/v2/indexes/" ++ name ++ "/query"
  /\ lookup "vector" sent = JStr id
  /\ (forall key, key <> "vector" -> lookup key sent = lookup key props)
  /\ run = executeRequest StringToNumber describe context config ("indexes/" ++ name ++ "/query")
             POST (JObj sent) itemIndex.
Proof.
  intros Hname Hid Hne run sent.
  assert (Hrun : run = executeRequest StringToNumber describe context config
                         ("indexes/" ++ name ++ "/query") POST (JObj sent) itemIndex).
  { subst run sent. unfold queryVectorById, await, sync. cbn [outcome requests].
    rewrite Hname. cbn [read bind ret]. rewrite Hid.
    cbn [truthy typeof negb]. apply String.eqb_neq in Hne. rewrite Hne.
    reflexivity. }
  repeat split.
  - now rewrite Hrun.
  - apply lookup_assign_same.
  - intros key Hkey. now apply lookup_assign_other.
  - exact Hrun.
Qed.

(** C8: [describeIndex] is [getIndex]: the same requests and the same result
    or error, for every context, connection, index name and item index. *)
Theorem C8_describeIndex_is_getIndex
  (context : IExecuteFunctions) (config : VectorizeConnectionConfig)
  (indexName : JsValue) (itemIndex : Z) :
  describeIndex StringToNumber describe context config indexName itemIndex
  = getIndex StringToNumber describe context config indexName itemIndex
  /\ outcome (describeIndex StringToNumber describe context config indexName itemIndex)
     = outcome (getIndex StringToNumber describe context config indexName itemIndex)
  /\ requests (describeIndex StringToNumber describe context config indexName itemIndex)
     = requests (getIndex StringToNumber describe context config indexName itemIndex).
Proof. repeat split. Qed.

End Operations.

(** C5 at scenario D: [queryVectorById("docs-1", {id: "v1", topK: 5})]. *)
Lemma C5_request_witness :
  requests (queryVectorById not_consulted message_kept (mock (inr mutation_envelope)) example_config
              (JStr "docs-1") (JObj [("id", JStr "v1"); ("topK", JNum 5)]) 0)
  = [{| method := POST;
        headers := [("Authorization", "Bearer secret-token");
                    ("Content-Type", "application/json")];
        url := "https://api.cloudflare.com/client/v4/accounts/acc/vectorize/v2/indexes/docs-1/query";
        json := true;
        body := JObj [("id", JStr "v1"); ("topK", JNum 5); ("vector", JStr "v1")] |}].
Proof.
  apply (C5_queryVectorById_request not_consulted message_kept (mock (inr mutation_envelope))
           example_config "docs-1" [("id", JStr "v1"); ("topK", JNum 5)] "v1" 0).
  - reflexivity.
  - reflexivity.
  - discriminate.
Defined.

(** C2, as stated, fails: with [values: [0.1, 0.2]] the call does not fail
    before the network; the request is handed to the helper and the call
    returns the service result. *)
Lemma C2_short_vector_is_sent :
  let run :=
    insertVectors not_consulted message_kept (mock (inr mutation_envelope)) example_config
      (JStr "docs-1") (JObj [("vectors", JArr [vector_v1 [JNum 0.1; JNum 0.2]])]) 0 in
  outcome run = inr (JObj [("mutationId", JStr "m1")])
  /\ map url (requests run)
     = ["https://api.cloudflare.com/client/v4/accounts/acc/vectorize/v2/indexes/docs-1/insert"].
Proof. split; reflexivity. Qed.

(** ** The token and what callers observe *)

Lemma same_observation_refl {A : Type} (p : Async A) : same_observation p p.
Proof. now split. Qed.

Lemma await_same_observation {A B : Type} (p q : Async A) (k1 k2 : A -> Async B) :
  same_observation p q ->
  (forall a, same_observation (k1 a) (k2 a)) ->
  same_observation (await p k1) (await q k2).
Proof.
  intros [Hout Hreq] Hk. unfold await. rewrite <- Hout.
  destruct (outcome p) as [e | a]; split; cbn [outcome requests]; try reflexivity.
  - assumption.
  - apply Hk.
  - rewrite !map_app, Hreq. f_equal. apply Hk.
Qed.

Lemma await_requests {A B : Type} (P : IHttpRequestOptions -> Prop)
  (p : Async A) (k : A -> Async B) :
  Forall P (requests p) ->
  (forall a, Forall P (requests (k a))) ->
  Forall P (requests (await p k)).
Proof.
  intros Hp Hk. unfold await.
  destruct (outcome p) as [e | a]; cbn [requests]; [assumption |].
  apply Forall_app. split; [assumption | apply Hk].
Qed.

Section Token.
Variable StringToNumber : string -> float.
Variable describe : string -> string.
Variable context : IExecuteFunctions.
Hypothesis Hcontext : ignores_authorization context.
Variable config : VectorizeConnectionConfig.
Variables token1 token2 : string.

Lemma executeRequest_same_observation endpoint method body itemIndex :
  same_observation
    (executeRequest StringToNumber describe context (with_token token1 config) endpoint method body itemIndex)
    (executeRequest StringToNumber describe context (with_token token2 config) endpoint method body itemIndex).
Proof.
  unfold executeRequest. split; cbn [outcome requests]; [| reflexivity].
  rewrite (Hcontext "cloudflareVectorizeApi"
             (http_options (with_token token1 config) endpoint method body)
             (http_options (with_token token2 config) endpoint method body) eq_refl).
  reflexivity.
Qed.

Lemma perform_same_observation operation itemIndex :
  same_observation
    (perform StringToNumber describe context (with_token token1 config) operation itemIndex)
    (perform StringToNumber describe context (with_token token2 config) operation itemIndex).
Proof.
  destruct operation; cbn [perform];
    unfold createIndex, listIndexes, deleteIndex, getIndex, getIndexInfo, insertVectors,
      upsertVectors, queryVectors, queryVectorById, getVectorsByIds, deleteVectorsByIds,
      createMetadataIndex, deleteMetadataIndex, listMetadataIndexes, listVectors,
      describeIndex, getIndex;
    repeat first
      [ apply executeRequest_same_observation
      | apply same_observation_refl
      | apply await_same_observation; [| intro] ].
Qed.

End Token.

Lemma perform_carries_token StringToNumber describe context config operation itemIndex :
  Forall (carries_token config)
         (requests (perform StringToNumber describe context config operation itemIndex)).
Proof.
  assert (Hexecute : forall endpoint method body,
            Forall (carries_token config)
              (requests (executeRequest StringToNumber describe context config endpoint method body
                           itemIndex))).
  { intros. repeat constructor. }
  assert (Hsync : forall (A : Type) (r : Result A),
            Forall (carries_token config) (requests (sync r))).
  { intros. constructor. }
  destruct operation; cbn [perform];
    unfold createIndex, listIndexes, deleteIndex, getIndex, getIndexInfo, insertVectors,
      upsertVectors, queryVectors, queryVectorById, getVectorsByIds, deleteVectorsByIds,
      createMetadataIndex, deleteMetadataIndex, listMetadataIndexes, listVectors,
      describeIndex, getIndex;
    repeat first
      [ apply Hexecute
      | apply Hsync
      | apply await_requests; [| intro] ].
Qed.

(** C9: take any operation with any arguments, and a helper whose answer (a
    response or a failure) does not depend on the Authorization header.  Two
    runs that differ only in the connection's [apiToken] settle alike: the same
    result or the same error, so the same error message, and the same requests
    but for the Authorization header, which is the only place where each
    request carries the token. *)
Theorem C9_errors_ignore_token
  (StringToNumber : string -> float) (describe : string -> string) (context : IExecuteFunctions)
  (config : VectorizeConnectionConfig) (token1 token2 : string)
  (operation : Operation) (itemIndex : Z) :
  ignores_authorization context ->
  let run1 := perform StringToNumber describe context (with_token token1 config) operation itemIndex in
  let run2 := perform StringToNumber describe context (with_token token2 config) operation itemIndex in
  outcome run1 = outcome run2
  /\ (forall e1 e2,
        outcome run1 = inl e1 -> outcome run2 = inl e2 ->
        e1 = e2 /\ message_of e1 = message_of e2)
  /\ map without_authorization (requests run1) = map without_authorization (requests run2)
  /\ Forall (fun options =>
               headers options = [("Authorization", "Bearer " ++ token1);
                                  ("Content-Type", "application/json")])
            (requests run1).
Proof.
  intros Hcontext run1 run2.
  destruct (perform_same_observation StringToNumber describe context Hcontext config
              token1 token2 operation itemIndex) as [Hout Hreq].
  fold run1 run2 in Hout, Hreq.
  split; [exact Hout |]. split; [| split; [exact Hreq |]].
  - intros e1 e2 H1 H2. rewrite Hout, H2 in H1. injection H1 as ->. now split.
  - apply (perform_carries_token StringToNumber describe context (with_token token1 config)).
Qed.

(** C9 at scenario C with two tokens: the same error either way. *)
Lemma C9_token_witness :
  outcome (perform not_consulted message_kept (mock (inr not_found_envelope))
             (with_token "token-one" example_config) (GetIndex (JStr "missing")) 0)
  = outcome (perform not_consulted message_kept (mock (inr not_found_envelope))
               (with_token "token-two" example_config) (GetIndex (JStr "missing")) 0).
Proof.
  apply (C9_errors_ignore_token not_consulted message_kept (mock (inr not_found_envelope))
           example_config "token-one" "token-two" (GetIndex (JStr "missing")) 0).
  intros credentials options1 options2 _. reflexivity.
Defined.

(** ** What can be thrown *)

Section NestedInduction.
Variable P : JsValue -> Prop.
Hypothesis Hundefined : P JUndefined.
Hypothesis Hnull : P JNull.
Hypothesis Hbool : forall b, P (JBool b).
Hypothesis Hnum : forall x, P (JNum x).
Hypothesis Hstr : forall s, P (JStr s).
Hypothesis Harr : forall elems, Forall P elems -> P (JArr elems).
Hypothesis Hfloat32 : forall elems, P (JFloat32Array elems).
Hypothesis Hfloat64 : forall elems, P (JFloat64Array elems).
Hypothesis Hobj : forall props, P (JObj props).

Lemma JsValue_array_ind : forall v, P v.
Proof.
  fix IH 1.
  intros [| |b|x|s|elems|elems|elems|props];
    [apply Hundefined | apply Hnull | apply Hbool | apply Hnum | apply Hstr |
     | apply Hfloat32 | apply Hfloat64 | apply Hobj].
  apply Harr. induction elems as [|a elems IHelems]; constructor; [apply IH | assumption].
Qed.

End NestedInduction.

Lemma bind_error {A B : Type} (P : JsError -> Prop) (r : Result A) (k : A -> Result B) e :
  bind r k = inl e ->
  (forall e', r = inl e' -> P e') ->
  (forall a e', k a = inl e' -> P e') ->
  P e.
Proof.
  intros H Hr Hk. destruct r as [e' | a]; simpl in H.
  - injection H as <-. now apply Hr.
  - now apply (Hk a).
Qed.

Lemma mapM_error {A B : Type} (P : JsError -> Prop) (f : A -> Result B) l :
  Forall (fun a => forall e, f a = inl e -> P e) l ->
  forall e, mapM f l = inl e -> P e.
Proof.
  induction 1 as [|a l Ha _ IH]; intros e H; simpl in H; [discriminate |].
  apply (bind_error P _ _ _ H); [exact Ha |].
  intros b e' H'. apply (bind_error P _ _ _ H'); [exact IH | discriminate].
Qed.

Lemma read_error_kind v key e : read v key = inl e -> is_type_error e.
Proof.
  destruct v; simpl; intro H; try discriminate;
    try (injection H as <-; now eexists).
Qed.

Lemma read_optional_error_kind v key e : read_optional v key = inl e -> is_type_error e.
Proof.
  destruct v; simpl; intro H; try discriminate; now apply (read_error_kind _ key).
Qed.

Lemma ToString_error_kind v : forall e, ToString v = inl e -> is_type_error e.
Proof.
  induction v as [| |b|x|s|elems IH|elems|elems|props] using JsValue_array_ind;
    intros e H; simpl in H; try discriminate.
  - apply (bind_error is_type_error _ _ _ H); [| discriminate].
    apply mapM_error. eapply Forall_impl; [| exact IH].
    intros a Ha e' H'. destruct a; simpl in H'; try discriminate; now apply Ha.
  - destruct (has_key "toString" props); [| discriminate].
    injection H as <-. now eexists.
Qed.

Lemma join_element_error_kind a e :
  join_element ToString a = inl e -> is_type_error e.
Proof.
  destruct a; unfold join_element; try discriminate; apply ToString_error_kind.
Qed.

Lemma join_error_kind elems separator e :
  join elems separator = inl e -> is_type_error e.
Proof.
  intro H. apply (bind_error is_type_error _ _ _ H); [| discriminate].
  apply mapM_error. apply Forall_forall. intros a _ e'. apply join_element_error_kind.
Qed.

Lemma error_messages_error_kind callee errors e :
  error_messages callee errors = inl e -> is_type_error e.
Proof.
  destruct errors; simpl; intro H; try discriminate;
    try (injection H as <-; now eexists).
  apply (bind_error is_type_error _ _ _ H).
  - apply mapM_error. apply Forall_forall. intros a _ e'. apply read_error_kind.
  - intros messages e'. apply join_error_kind.
Qed.

Lemma ToNumber_error_kind StringToNumber v e :
  ToNumber StringToNumber v = inl e -> is_type_error e.
Proof.
  destruct v; simpl; intro H; try discriminate.
  - destruct (mapM (join_element ToString) elems) as [e' | parts] eqn:Hparts;
      [| discriminate].
    injection H as <-. apply (ToString_error_kind (JArr elems)). simpl. now rewrite Hparts.
  - destruct (has_key "toString" props) eqn:Hkey; [| discriminate].
    injection H as <-. now eexists.
Qed.

Lemma read_error_error_kind error key e : read_error error key = inl e -> is_type_error e.
Proof.
  destruct error; simpl; try discriminate. apply read_error_kind.
Qed.

Lemma truthy_not_nullish v : truthy v = true -> not_nullish v.
Proof. destruct v; simpl; intro H; try discriminate; split; discriminate. Qed.

Lemma readable_not_nullish v key x : read v key = inr x -> not_nullish v.
Proof. destruct v; simpl; intro H; try discriminate; split; discriminate. Qed.

Section Settling.
Variable StringToNumber : string -> float.
Variable describe : string -> string.
Variable node : INode.
Variable itemIndex : Z.

(** A computation that ends in a throw of one of the two expected kinds. *)
Let rejects (r : Result JsValue) : Prop :=
  exists e, r = inl e /\ (is_type_error e \/ is_operation_error node itemIndex e).

Lemma rejects_bind {A : Type} (r : Result A) (k : A -> Result JsValue) :
  (forall e, r = inl e -> is_type_error e) ->
  (forall a, rejects (k a)) ->
  rejects (bind r k).
Proof.
  intros Hr Hk. destruct r as [e | a]; simpl.
  - exists e. split; [reflexivity | left; now apply Hr].
  - apply Hk.
Qed.

Lemma rejects_throw message :
  rejects (throw (NodeOperationError node message itemIndex)).
Proof. eexists. split; [reflexivity | right; now eexists]. Qed.

Lemma greater_than_zero_error_kind v e :
  greater_than_zero StringToNumber v = inl e -> is_type_error e.
Proof.
  intro H. apply (bind_error is_type_error _ _ _ H); [| discriminate].
  intro e'. apply ToNumber_error_kind.
Qed.

Lemma handle_failure_foreign error :
  (forall n m i, error <> NodeOperationError n m i) ->
  rejects (handle_failure StringToNumber describe node itemIndex error).
Proof.
  intro Hforeign.
  assert (Hbody : rejects (
    response <- read_error error "response" ;;
    status <- read_optional response "status" ;;
    if truthy status
    then
      data <- read response "data" ;;
      status_text <- ToString status ;;
      errors <- read_optional data "errors" ;;
      count <- read_optional errors "length" ;;
      some <- greater_than_zero StringToNumber count ;;
      if some
      then
        apiErrors <- error_messages "data.errors" errors ;;
        throw (NodeOperationError node (describe ("API error: " ++ apiErrors)) itemIndex)
      else
        message <- read_optional data "message" ;;
        if truthy message
        then
          message_text <- ToString message ;;
          throw (NodeOperationError node (describe ("API error: " ++ message_text)) itemIndex)
        else
          throw (NodeOperationError node (describe ("HTTP " ++ status_text ++ " error")) itemIndex)
    else
      message <- read_error error "message" ;;
      message_text <- ToString message ;;
      throw (NodeOperationError node (describe ("Request failed: " ++ message_text)) itemIndex))).
  { apply rejects_bind; [intro; apply read_error_error_kind | intro response].
    apply rejects_bind; [intro; apply read_optional_error_kind | intro status].
    destruct (truthy status).
    - apply rejects_bind; [intro; apply read_error_kind | intro data].
      apply rejects_bind; [apply ToString_error_kind | intro status_text].
      apply rejects_bind; [intro; apply read_optional_error_kind | intro errors].
      apply rejects_bind; [intro; apply read_optional_error_kind | intro count].
      apply rejects_bind; [intro; apply greater_than_zero_error_kind | intros [|]].
      + apply rejects_bind; [intro; apply error_messages_error_kind | intro].
        apply rejects_throw.
      + apply rejects_bind; [intro; apply read_optional_error_kind | intro message].
        destruct (truthy message); [| apply rejects_throw].
        apply rejects_bind; [apply ToString_error_kind | intro]. apply rejects_throw.
    - apply rejects_bind; [intro; apply read_error_error_kind | intro message].
      apply rejects_bind; [apply ToString_error_kind | intro]. apply rejects_throw. }
  destruct error; try exact Hbody. now destruct (Hforeign node0 message itemIndex0).
Qed.

Lemma read_response_kinds response :
  (forall v, read_response describe node itemIndex response = inr v -> not_nullish v)
  /\ (forall e, read_response describe node itemIndex response = inl e ->
        is_type_error e \/ is_operation_error node itemIndex e).
Proof.
  unfold read_response. split.
  - intros v H.
    destruct (read response "success") as [e | success] eqn:Hsuccess; [discriminate |].
    apply readable_not_nullish in Hsuccess. cbn [bind] in H.
    destruct (is_false success).
    + destruct (read response "errors") as [e | errors]; [discriminate |]. cbn [bind] in H.
      destruct (error_messages "errors" (or_else errors (JArr []))); discriminate.
    + destruct (read response "result") as [e | result]; [discriminate |].
      injection H as <-. unfold or_else.
      destruct (truthy result) eqn:Hresult; [now apply truthy_not_nullish | assumption].
  - intros e H.
    pose (expected := fun e => is_type_error e \/ is_operation_error node itemIndex e).
    change (expected e).
    apply (bind_error expected _ _ _ H).
    + intros e' H'. left. now apply (read_error_kind _ _ _ H').
    + intros success e' H'. destruct (is_false success).
      * apply (bind_error expected _ _ _ H').
        { intros e'' H''. left. now apply (read_error_kind _ _ _ H''). }
        intros errors e'' H''. apply (bind_error expected _ _ _ H'').
        { intros e3 H3. left. now apply (error_messages_error_kind _ _ _ H3). }
        intros messages e3 [= <-]. right. now eexists.
      * apply (bind_error expected _ _ _ H').
        { intros e'' H''. left. now apply (read_error_kind _ _ _ H''). }
        discriminate.
Qed.

Lemma handle_failure_type_error message :
  handle_failure StringToNumber describe node itemIndex (TypeError message)
  = inl (NodeOperationError node (describe ("Request failed: " ++ message)) itemIndex).
Proof. reflexivity. Qed.

Lemma handle_failure_rejects error :
  exists e, handle_failure StringToNumber describe node itemIndex error = inl e.
Proof.
  destruct error as [m | m | n m i | value].
  - destruct (handle_failure_foreign (Error m)) as (e & He & _);
      [intros; discriminate | now exists e].
  - destruct (handle_failure_foreign (TypeError m)) as (e & He & _);
      [intros; discriminate | now exists e].
  - now eexists.
  - destruct (handle_failure_foreign (Thrown value)) as (e & He & _);
      [intros; discriminate | now exists e].
Qed.

End Settling.

(** X1: [executeRequest] hides the helper's own errors.  It never resolves
    to [undefined] or [null].  When the helper answers with a response, the
    call either returns or rejects with a [NodeOperationError] of this node
    and item, whatever the response holds.  When the helper throws, a
    [NodeOperationError] it threw is passed on as it is, and anything else is
    replaced by a [NodeOperationError] of this node and item, or, if the
    thrown value cannot be read, by the engine's [TypeError]; the thrown
    value itself never escapes. *)
Theorem X1_executeRequest_settles
  (StringToNumber : string -> float) (describe : string -> string) (context : IExecuteFunctions)
  (config : VectorizeConnectionConfig) (endpoint : string)
  (method : IHttpRequestMethods) (body : JsValue) (itemIndex : Z) :
  let answer := httpRequestWithAuthentication context "cloudflareVectorizeApi"
                  (http_options config endpoint method body) in
  let run := executeRequest StringToNumber describe context config endpoint method body itemIndex in
  (forall v, outcome run = inr v -> not_nullish v /\ exists response, answer = inr response)
  /\ (forall response e,
        answer = inr response -> outcome run = inl e ->
        is_operation_error (getNode context) itemIndex e)
  /\ (forall thrown e,
        answer = inl thrown -> outcome run = inl e ->
        match thrown with
        | NodeOperationError _ _ _ => e = thrown
        | _ => is_operation_error (getNode context) itemIndex e \/ is_type_error e
        end)
  /\ (forall value, outcome run <> inl (Thrown value)).
Proof.
  intros answer run.
  assert (Hforeign : forall error,
            (forall n m i, error <> NodeOperationError n m i) ->
            forall e, handle_failure StringToNumber describe (getNode context) itemIndex error = inl e ->
            is_operation_error (getNode context) itemIndex e \/ is_type_error e).
  { intros error Hne e He.
    destruct (handle_failure_foreign StringToNumber describe (getNode context) itemIndex error Hne)
      as (e' & He' & Hkind).
    rewrite He' in He. injection He as <-. tauto. }
  assert (Hfails : forall error v,
            handle_failure StringToNumber describe (getNode context) itemIndex error <> inr v).
  { intros error v Hv.
    destruct (handle_failure_rejects StringToNumber describe (getNode context) itemIndex error)
      as (e' & He').
    rewrite He' in Hv. discriminate. }
  assert (Hanswered : forall response e,
            answer = inr response -> outcome run = inl e ->
            is_operation_error (getNode context) itemIndex e).
  { intros response e Hanswer Hrun. subst run. unfold executeRequest in Hrun.
    cbn [outcome] in Hrun. fold answer in Hrun. rewrite Hanswer in Hrun. cbn [bind] in Hrun.
    destruct (read_response describe (getNode context) itemIndex response) as [e' | v] eqn:Hread;
      [| discriminate].
    apply (proj2 (read_response_kinds _ _ _ _)) in Hread as [(m & ->) | (m & ->)].
    - rewrite handle_failure_type_error in Hrun. injection Hrun as <-. now eexists.
    - simpl in Hrun. injection Hrun as <-. now eexists. }
  assert (Hthrown : forall thrown e,
            answer = inl thrown -> outcome run = inl e ->
            match thrown with
            | NodeOperationError _ _ _ => e = thrown
            | _ => is_operation_error (getNode context) itemIndex e \/ is_type_error e
            end).
  { intros thrown e Hanswer Hrun. subst run. unfold executeRequest in Hrun.
    cbn [outcome] in Hrun. fold answer in Hrun. rewrite Hanswer in Hrun. cbn [bind] in Hrun.
    destruct thrown as [m | m | n m i | value];
      try (apply (Hforeign _) in Hrun; [exact Hrun | intros; discriminate]).
    simpl in Hrun. now injection Hrun as <-. }
  split; [| split; [exact Hanswered | split; [exact Hthrown |]]].
  - intros v Hrun. subst run. unfold executeRequest in Hrun. cbn [outcome] in Hrun.
    fold answer in Hrun.
    destruct answer as [thrown | response] eqn:Hanswer; cbn [bind] in Hrun.
    + now destruct (Hfails thrown v).
    + destruct (read_response describe (getNode context) itemIndex response) as [e' | v'] eqn:Hread.
      * now destruct (Hfails e' v).
      * injection Hrun as <-. split; [| now exists response].
        now apply (proj1 (read_response_kinds _ _ _ _) _ Hread).
  - intros value Hrun.
    destruct answer as [thrown | response] eqn:Hanswer.
    + pose proof (Hthrown thrown _ eq_refl Hrun) as H.
      destruct thrown; try (destruct H as [(m & H) | (m & H)]; discriminate).
      discriminate.
    + destruct (Hanswered response _ eq_refl Hrun) as (m & H). discriminate.
Qed.

(** X2: a response whose [success] is [false] is never returned as a result,
    whatever else it holds.  The call rejects with a [NodeOperationError] of
    this node and item, built from a text that starts with
    "Cloudflare API error: ", or, when [errors] cannot be mapped and joined (it
    is not an array, or an entry is [null]), from "Request failed: " followed
    by the engine's complaint; the message of the error is the library's
    reading of that text. *)
Theorem X2_failed_envelope_rejects
  (StringToNumber : string -> float) (describe : string -> string) (context : IExecuteFunctions)
  (config : VectorizeConnectionConfig) (endpoint : string)
  (method : IHttpRequestMethods) (body : JsValue) (itemIndex : Z) (response : JsValue) :
  httpRequestWithAuthentication context "cloudflareVectorizeApi"
    (http_options config endpoint method body) = inr response ->
  read response "success" = inr (JBool false) ->
  exists text,
    outcome (executeRequest StringToNumber describe context config endpoint method body itemIndex)
    = inl (NodeOperationError (getNode context)
             (describe ("Cloudflare API error: " ++ text)) itemIndex)
    \/ outcome (executeRequest StringToNumber describe context config endpoint method body itemIndex)
       = inl (NodeOperationError (getNode context)
                (describe ("Request failed: " ++ text)) itemIndex).
Proof.
  intros Hanswer Hsuccess. unfold executeRequest. cbn [outcome].
  rewrite Hanswer. cbn [bind]. unfold read_response. rewrite Hsuccess. cbn [bind is_false].
  destruct (read response "errors") as [e | errors] eqn:Herrors; cbn [bind].
  - apply read_error_kind in Herrors as (m & ->). exists m. now right.
  - destruct (error_messages "errors" (or_else errors (JArr []))) as [e | text] eqn:Htext;
      cbn [bind].
    + apply error_messages_error_kind in Htext as (m & ->). exists m. now right.
    + exists text. now left.
Qed.

(** X2 at an envelope whose [errors] is a string, with a constructor that
    keeps the message. *)
Lemma X2_failed_envelope_witness :
  exists text,
    outcome (executeRequest not_consulted message_kept
               (mock (inr (JObj [("success", JBool false); ("errors", JStr "quota")])))
               example_config "indexes" GET JUndefined 0)
    = inl (NodeOperationError "Cloudflare Vectorize" ("Cloudflare API error: " ++ text) 0)
    \/ outcome (executeRequest not_consulted message_kept
                  (mock (inr (JObj [("success", JBool false); ("errors", JStr "quota")])))
                  example_config "indexes" GET JUndefined 0)
       = inl (NodeOperationError "Cloudflare Vectorize" ("Request failed: " ++ text) 0).
Proof.
  apply (X2_failed_envelope_rejects not_consulted message_kept
           (mock (inr (JObj [("success", JBool false); ("errors", JStr "quota")])))
           example_config "indexes" GET JUndefined 0
           (JObj [("success", JBool false); ("errors", JStr "quota")]));
    reflexivity.
Defined.

(** X3: how a failure of the helper is reported: from which text the
    [NodeOperationError] is built, its message being the library's reading of
    that text.  If the thrown object has no [response], the text is
    "Request failed: " and the thrown [message].  If it has a [response] with
    a truthy [status], the entries of the body's [errors] come first
    ("API error: " and their messages joined by ", "); without entries a
    truthy [message] of the body is used ("API error: " and that message);
    without either the text is "HTTP <status> error". *)
Theorem X3_transport_failure_message
  (StringToNumber : string -> float) (describe : string -> string) (context : IExecuteFunctions)
  (config : VectorizeConnectionConfig) (endpoint : string)
  (method : IHttpRequestMethods) (body : JsValue) (itemIndex : Z)
  (thrown : list (string * JsValue)) :
  httpRequestWithAuthentication context "cloudflareVectorizeApi"
    (http_options config endpoint method body) = inl (Thrown (JObj thrown)) ->
  let run := executeRequest StringToNumber describe context config endpoint method body itemIndex in
  let fails_with message :=
    outcome run = inl (NodeOperationError (getNode context) (describe message) itemIndex) in
  (forall text,
     lookup "response" thrown = JUndefined ->
     ToString (lookup "message" thrown) = inr text ->
     fails_with ("Request failed: " ++ text))
  /\ (forall response status_text,
        lookup "response" thrown = JObj response ->
        truthy (lookup "status" response) = true ->
        ToString (lookup "status" response) = inr status_text ->
        let data := lookup "data" response in
        (forall props errors messages,
           data = JObj props ->
           lookup "errors" props = JArr errors ->
           PrimFloat.ltb 0 (number_of_nat (length errors)) = true ->
           Forall2 (fun error message => read error "message" = inr (JStr message))
                   errors messages ->
           fails_with ("API error: " ++ String.concat ", " messages))
        /\ (forall message,
              without_errors data -> body_message data = JStr message -> message <> "" ->
              fails_with ("API error: " ++ message))
        /\ (without_errors data -> truthy (body_message data) = false ->
            fails_with ("HTTP " ++ status_text ++ " error"))).
Proof.
  intros Hanswer run fails_with. subst fails_with run.
  unfold executeRequest. cbn [outcome]. rewrite Hanswer. cbn [bind handle_failure read_error read].
  split.
  - intros text Hresponse Hmessage. rewrite Hresponse. cbn [read_optional bind ret truthy].
    now rewrite Hmessage.
  - intros response status_text Hresponse Hstatus Htext. rewrite Hresponse.
    cbn [read_optional read bind ret]. rewrite Hstatus, Htext. cbn [bind].
    set (data := lookup "data" response).
    assert (Hnone : without_errors data ->
              (errors <- read_optional data "errors" ;;
               count <- read_optional errors "length" ;;
               greater_than_zero StringToNumber count) = inr false
              /\ read_optional data "message" = inr (body_message data)).
    { intros [-> | (props & -> & [Herrors | Herrors])]; cbn [read_optional read bind ret];
        try rewrite Herrors; split; reflexivity. }
    split; [| split].
    + intros props errors messages Hdata Herrors Hcount Hmessages. rewrite Hdata.
      cbn [read_optional read bind ret]. rewrite Herrors.
      cbn [read_optional read length_of bind ret String.eqb Ascii.eqb Bool.eqb].
      unfold greater_than_zero. cbn [ToNumber bind ret]. rewrite Hcount.
      unfold error_messages. rewrite (read_messages _ _ Hmessages). cbn [bind].
      now rewrite join_strings.
    + intros message Hnoerrors Hmessage Hne.
      destruct (Hnone Hnoerrors) as [Hcount Hread].
      destruct (read_optional data "errors") as [e | errors]; [discriminate |].
      cbn [bind] in *.
      destruct (read_optional errors "length") as [e | count]; [discriminate |].
      cbn [bind] in *. rewrite Hcount, Hread, Hmessage. cbn [bind truthy ToString ret].
      apply String.eqb_neq in Hne. now rewrite Hne.
    + intros Hnoerrors Hmessage.
      destruct (Hnone Hnoerrors) as [Hcount Hread].
      destruct (read_optional data "errors") as [e | errors]; [discriminate |].
      cbn [bind] in *.
      destruct (read_optional errors "length") as [e | count]; [discriminate |].
      cbn [bind] in *. rewrite Hcount, Hread. cbn [bind]. now rewrite Hmessage.
Qed.

(** X3 at four failures, with a constructor that keeps the message: a
    dropped connection, a 404 with two error entries (and a message that is
    then ignored), a 403 with a message only, and a 500 without a body. *)
Lemma X3_transport_failure_witness :
  outcome (executeRequest not_consulted message_kept
             (mock (inl (Thrown (JObj [("message", JStr "socket hang up")]))))
             example_config "indexes" GET JUndefined 2)
  = inl (NodeOperationError "Cloudflare Vectorize" "Request failed: socket hang up" 2)
  /\ outcome (executeRequest not_consulted message_kept
                (mock (inl (Thrown (JObj (http_failure 404
                   (JObj [("message", JStr "ignored");
                          ("errors", JArr [JObj [("message", JStr "index not found")];
                                           JObj [("message", JStr "gone")]])]))))))
                example_config "indexes" GET JUndefined 2)
     = inl (NodeOperationError "Cloudflare Vectorize" "API error: index not found, gone" 2)
  /\ outcome (executeRequest not_consulted message_kept
                (mock (inl (Thrown (JObj (http_failure 403
                   (JObj [("message", JStr "forbidden")]))))))
                example_config "indexes" GET JUndefined 2)
     = inl (NodeOperationError "Cloudflare Vectorize" "API error: forbidden" 2)
  /\ outcome (executeRequest not_consulted message_kept
                (mock (inl (Thrown (JObj (http_failure 500 JUndefined)))))
                example_config "indexes" GET JUndefined 2)
     = inl (NodeOperationError "Cloudflare Vectorize" "HTTP 500 error" 2).
Proof.
  split; [| split; [| split]].
  - apply (proj1 (X3_transport_failure_message not_consulted message_kept
                    (mock (inl (Thrown (JObj [("message", JStr "socket hang up")]))))
                    example_config "indexes" GET JUndefined 2 _ eq_refl));
      reflexivity.
  - destruct (proj2 (X3_transport_failure_message not_consulted message_kept
                (mock (inl (Thrown (JObj (http_failure 404
                   (JObj [("message", JStr "ignored");
                          ("errors", JArr [JObj [("message", JStr "index not found")];
                                           JObj [("message", JStr "gone")]])]))))))
                example_config "indexes" GET JUndefined 2 _ eq_refl)
                _ "404" eq_refl eq_refl eq_refl) as (Hentries & _ & _).
    apply (Hentries _ _ ["index not found"; "gone"] eq_refl eq_refl eq_refl).
    repeat constructor.
  - destruct (proj2 (X3_transport_failure_message not_consulted message_kept
                (mock (inl (Thrown (JObj (http_failure 403
                   (JObj [("message", JStr "forbidden")]))))))
                example_config "indexes" GET JUndefined 2 _ eq_refl)
                _ "403" eq_refl eq_refl eq_refl) as (_ & Hmessage & _).
    apply (Hmessage "forbidden"); [| reflexivity | discriminate].
    right. eexists. split; [reflexivity | now left].
  - destruct (proj2 (X3_transport_failure_message not_consulted message_kept
                (mock (inl (Thrown (JObj (http_failure 500 JUndefined)))))
                example_config "indexes" GET JUndefined 2 _ eq_refl)
                _ "500" eq_refl eq_refl eq_refl) as (_ & _ & Hstatus).
    apply Hstatus; [now left | reflexivity].
Defined.

(** ** Validation before the network *)

Lemma await_sync_ok {A B : Type} (a : A) (k : A -> Async B) :
  await (sync (inr a)) k = k a.
Proof. unfold await, sync. cbn [outcome requests app]. now destruct (k a). Qed.

Lemma await_sync_error {A B : Type} (e : JsError) (k : A -> Async B) :
  await (sync (inl e : Result A)) k = settle [] (inl e).
Proof. reflexivity. Qed.

Lemma validateIndexName_string_of v :
  validateIndexName v = inr tt -> v = JStr (string_of v).
Proof.
  intro H. apply validateIndexName_accepts_iff in H as (s & -> & _). reflexivity.
Qed.

Lemma append_assoc (a b c : string) : (a ++ b) ++ c = a ++ b ++ c.
Proof. induction a as [|ch a IH]; simpl; [reflexivity | now rewrite IH]. Qed.

(** X4: an operation that takes an index name sends nothing when the name is
    not valid: it rejects with the error of [validateIndexName], and no request
    reaches the helper, whatever the rest of its arguments. *)
Theorem X4_invalid_name_sends_nothing
  (StringToNumber : string -> float) (describe : string -> string) (context : IExecuteFunctions)
  (config : VectorizeConnectionConfig) (operation : Operation) (itemIndex : Z)
  (indexName : JsValue) (e : JsError) :
  operation_index_name operation = Some indexName ->
  validateIndexName indexName = inl e ->
  perform StringToNumber describe context config operation itemIndex = settle [] (inl e).
Proof.
  intros Hname Hvalid.
  destruct operation; cbn [operation_index_name] in Hname;
    try discriminate; try (injection Hname as ->);
    cbn [perform];
    unfold createIndex, deleteIndex, getIndex, getIndexInfo, insertVectors,
      upsertVectors, queryVectors, queryVectorById, getVectorsByIds, deleteVectorsByIds,
      createMetadataIndex, deleteMetadataIndex, listMetadataIndexes, listVectors,
      describeIndex, getIndex;
    try (rewrite Hvalid; reflexivity).
  destruct (read request "name") as [e' | name] eqn:Hread; [discriminate |].
  injection Hname as ->. cbn [bind]. rewrite Hvalid. reflexivity.
Qed.

(** X4 at an index name with an underscore. *)
Lemma X4_invalid_name_witness :
  perform not_consulted message_kept (mock (inr mutation_envelope)) example_config
    (DeleteVectorsByIds (JStr "My_Index") (JObj [("ids", JArr [JStr "v1"])])) 0
  = settle [] (inl (Error "Index name must contain only lowercase letters, numbers, and hyphens, and cannot start or end with a hyphen")).
Proof.
  apply (X4_invalid_name_sends_nothing not_consulted message_kept (mock (inr mutation_envelope))
           example_config _ 0 (JStr "My_Index")); reflexivity.
Defined.

Lemma validateIndexName_is_string v a :
  validateIndexName v = inr a -> exists s, v = JStr s.
Proof.
  destruct a. intro H. apply validateIndexName_accepts_iff in H as (s & -> & _).
  now exists s.
Qed.

Lemma index_endpoint_string s suffix :
  index_endpoint (JStr s) suffix = inr ("indexes/" ++ s ++ suffix).
Proof. reflexivity. Qed.

Lemma requests_await_request {A B : Type} (p : Async A) (r : A -> Result B) :
  requests (await p (fun a => sync (r a))) = requests p.
Proof.
  unfold await. destruct (outcome p); cbn [requests sync]; [reflexivity | apply app_nil_r].
Qed.

(** One step of an operation: the synchronous check either throws, and the
    operation has sent nothing, or lets the operation go on. *)
Ltac check_step :=
  match goal with
  | |- context [await (sync ?r) _] =>
      let H := fresh "Hcheck" in
      destruct r eqn:H;
      [ rewrite await_sync_error; left; reflexivity | rewrite await_sync_ok ]
  end.

Ltac name_is_string :=
  match goal with
  | H : validateIndexName _ = inr _ |- _ =>
      apply validateIndexName_is_string in H; destruct H as (?name & ->)
  end.

Ltac sent_to_route :=
  name_is_string;
  match goal with
  | H : index_endpoint (JStr _) _ = inr _ |- _ =>
      rewrite index_endpoint_string in H; injection H as <-
  end;
  right; exists ""; split; [| reflexivity];
  cbn [route_path operation_index_name route_suffix string_of];
  rewrite ?append_empty_r; reflexivity.

(** X5: every operation hands the helper at most one request, and that
    request is the one of the table: the method of the operation, the path
    [indexes], or [indexes/{name}] and the suffix of the operation, under the
    account's base URL, with the body of the operation; only [listVectors]
    adds a query string. *)
Theorem X5_requests_follow_the_table
  (StringToNumber : string -> float) (describe : string -> string) (context : IExecuteFunctions)
  (config : VectorizeConnectionConfig) (operation : Operation) (itemIndex : Z) :
  requests (perform StringToNumber describe context config operation itemIndex) = []
  \/ exists query,
       requests (perform StringToNumber describe context config operation itemIndex)
       = [http_options config (route_path operation ++ query)
            (route_method operation) (route_body operation)]
       /\ (has_query operation = false -> query = "").
Proof.
  destruct operation; cbn [perform].
  - unfold createIndex. do 2 check_step. right. exists "". now split.
  - unfold listIndexes. rewrite requests_await_request. right. exists "". now split.
  - unfold deleteIndex. do 2 check_step.
    rewrite (requests_await_request _ (fun _ => ret JUndefined)). sent_to_route.
  - unfold getIndex. do 2 check_step. sent_to_route.
  - unfold getIndexInfo. do 2 check_step. sent_to_route.
  - unfold insertVectors. do 3 check_step. sent_to_route.
  - unfold upsertVectors. do 3 check_step. sent_to_route.
  - unfold queryVectors. do 3 check_step. sent_to_route.
  - unfold queryVectorById. do 3 check_step.
    assert (Hid : j = lookup "id" (spread request)).
    { destruct request; cbn in Hcheck0; try discriminate.
      destruct (negb (truthy (lookup "id" props))
                || negb (typeof (lookup "id" props) =? "string")); [discriminate |].
      now injection Hcheck0 as <-. }
    subst j. sent_to_route.
  - unfold getVectorsByIds. do 3 check_step. sent_to_route.
  - unfold deleteVectorsByIds. do 3 check_step. sent_to_route.
  - unfold createMetadataIndex. do 3 check_step. sent_to_route.
  - unfold deleteMetadataIndex. do 3 check_step. sent_to_route.
  - unfold listMetadataIndexes. do 2 check_step. sent_to_route.
  - unfold listVectors. cbv zeta. do 3 check_step. name_is_string.
    rewrite index_endpoint_string in Hcheck1. injection Hcheck1 as <-.
    right. eexists. split; [| discriminate].
    cbn [route_path operation_index_name route_suffix string_of requests executeRequest].
    now rewrite !append_assoc.
  - unfold describeIndex, getIndex. do 2 check_step. sent_to_route.
Qed.

(** ** What each operation requires of its request *)

Lemma named_operation_sends {B : Type} (name suffix : string) (check : Result B)
  (b : B) (k : string -> Async JsValue) :
  validateIndexName (JStr name) = inr tt ->
  check = inr b ->
  (_ <~ sync (validateIndexName (JStr name)) ;;
   _ <~ sync check ;;
   endpoint <~ sync (index_endpoint (JStr name) suffix) ;;
   k endpoint)
  = k ("indexes/" ++ name ++ suffix).
Proof.
  intros Hname Hcheck. rewrite Hname, await_sync_ok, Hcheck, await_sync_ok.
  now rewrite index_endpoint_string, await_sync_ok.
Qed.

Lemma named_operation_stops {B : Type} (name suffix : string) (check : Result B)
  (e : JsError) (k : string -> Async JsValue) :
  validateIndexName (JStr name) = inr tt ->
  check = inl e ->
  (_ <~ sync (validateIndexName (JStr name)) ;;
   _ <~ sync check ;;
   endpoint <~ sync (index_endpoint (JStr name) suffix) ;;
   k endpoint)
  = settle [] (inl e).
Proof.
  intros Hname Hcheck. now rewrite Hname, await_sync_ok, Hcheck.
Qed.

Lemma require_ids_verdict props :
  (exists first rest, lookup "ids" props = JArr (first :: rest)
                      /\ require_ids (JObj props) = inr tt)
  \/ ((forall first rest, lookup "ids" props <> JArr (first :: rest))
      /\ require_ids (JObj props)
         = inl (Error "Vector IDs are required and must be a non-empty array")).
Proof.
  unfold require_ids. cbn [read bind ret].
  destruct (lookup "ids" props) as [| |b|x|s|[|first rest]| | |];
    try (right; split; [discriminate |]; cbn; rewrite ?orb_true_r; reflexivity).
  left. now exists first, rest.
Qed.

Section Gates.
Variable StringToNumber : string -> float.
Variable describe : string -> string.
Variable context : IExecuteFunctions.
Variable config : VectorizeConnectionConfig.
Variable name : string.
Variable props : list (string * JsValue).
Variable itemIndex : Z.
Hypothesis Hname : validateIndexName (JStr name) = inr tt.

(** X6: under a valid index name, [getVectorsByIds] and [deleteVectorsByIds]
    post the request, as it is, to [indexes/{name}/get_by_ids] and
    [indexes/{name}/delete_by_ids] when its [ids] is an array with at least one
    element, whatever the elements are; in every other case ([ids] missing,
    empty, or not an array) both reject with "Vector IDs are required and
    must be a non-empty array" and send nothing. *)
Theorem X6_id_lists_must_be_non_empty :
  let request := JObj props in
  let refused :=
    settle [] (inl (Error "Vector IDs are required and must be a non-empty array")) in
  ((exists first rest, lookup "ids" props = JArr (first :: rest)) ->
   getVectorsByIds StringToNumber describe context config (JStr name) request itemIndex
   = executeRequest StringToNumber describe context config
       ("indexes/" ++ name ++ "/get_by_ids") POST request itemIndex
   /\ deleteVectorsByIds StringToNumber describe context config (JStr name) request itemIndex
      = executeRequest StringToNumber describe context config
          ("indexes/" ++ name ++ "/delete_by_ids") POST request itemIndex)
  /\ ((forall first rest, lookup "ids" props <> JArr (first :: rest)) ->
      getVectorsByIds StringToNumber describe context config (JStr name) request itemIndex = refused
      /\ deleteVectorsByIds StringToNumber describe context config (JStr name) request itemIndex
         = refused).
Proof.
  intros request refused. subst request refused. unfold getVectorsByIds, deleteVectorsByIds.
  destruct (require_ids_verdict props) as [(first & rest & Hids & Hok) | [Hnone Hstop]].
  - split.
    + intros _. split; now apply named_operation_sends with (b := tt).
    + intro Hnot. now destruct (Hnot first rest).
  - split.
    + intros (first & rest & Hids). now destruct (Hnone first rest).
    + intros _. split; now apply named_operation_stops.
Qed.

(** X7: under a valid index name, [queryVectors] posts the request to
    [indexes/{name}/query] exactly when its [vector] is an array, empty or
    not; a [Float32Array] or [Float64Array], which [insertVectors] accepts as
    [values], is rejected here like anything else, with "Query vector is
    required and must be an array", and nothing is sent. *)
Theorem X7_query_vector_must_be_an_array :
  let request := JObj props in
  ((exists elems, lookup "vector" props = JArr elems) ->
   queryVectors StringToNumber describe context config (JStr name) request itemIndex
   = executeRequest StringToNumber describe context config
       ("indexes/" ++ name ++ "/query") POST request itemIndex)
  /\ ((forall elems, lookup "vector" props <> JArr elems) ->
      queryVectors StringToNumber describe context config (JStr name) request itemIndex
      = settle [] (inl (Error "Query vector is required and must be an array"))).
Proof.
  intro request. subst request. unfold queryVectors. split.
  - intros (elems & Hvector). apply named_operation_sends with (b := tt); [assumption |].
    cbn [read bind ret]. now rewrite Hvector.
  - intro Hnot. apply named_operation_stops; [assumption |].
    cbn [read bind ret].
    destruct (lookup "vector" props) as [| |b|x|s|elems| | |];
      try (cbn; rewrite ?orb_true_r; reflexivity).
    now destruct (Hnot elems).
Qed.

(** X8: under a valid index name, [createMetadataIndex] and
    [deleteMetadataIndex] post the request, as it is, to
    [indexes/{name}/metadata_index/create] and [.../delete] exactly when its
    [propertyName] is a non-empty string; the [type] of the metadata index is
    not looked at.  Otherwise both reject with "Property name is required
    and must be a string" and send nothing. *)
Theorem X8_property_name_is_required :
  let request := JObj props in
  let refused :=
    settle [] (inl (Error "Property name is required and must be a string")) in
  ((exists propertyName, lookup "propertyName" props = JStr propertyName
                         /\ propertyName <> "") ->
   createMetadataIndex StringToNumber describe context config (JStr name) request itemIndex
   = executeRequest StringToNumber describe context config
       ("indexes/" ++ name ++ "/metadata_index/create") POST request itemIndex
   /\ deleteMetadataIndex StringToNumber describe context config (JStr name) request itemIndex
      = executeRequest StringToNumber describe context config
          ("indexes/" ++ name ++ "/metadata_index/delete") POST request itemIndex)
  /\ ((forall propertyName, lookup "propertyName" props = JStr propertyName ->
                            propertyName = "") ->
      createMetadataIndex StringToNumber describe context config (JStr name) request itemIndex
      = refused
      /\ deleteMetadataIndex StringToNumber describe context config (JStr name) request itemIndex
         = refused).
Proof.
  intros request refused. subst request refused.
  unfold createMetadataIndex, deleteMetadataIndex.
  assert (Hcheck : forall v : unit,
            require_property_name (JObj props)
            = if negb (truthy (lookup "propertyName" props))
                 || negb (typeof (lookup "propertyName" props) =? "string")
              then inl (Error "Property name is required and must be a string")
              else inr tt) by reflexivity.
  split.
  - intros Hgiven. apply nonempty_string_check in Hgiven.
    split; apply named_operation_sends with (b := tt); try assumption;
      now rewrite (Hcheck tt), Hgiven.
  - intro Hnot.
    assert (Hbad : negb (truthy (lookup "propertyName" props))
                   || negb (typeof (lookup "propertyName" props) =? "string") = true).
    { destruct (negb (truthy (lookup "propertyName" props))
                || negb (typeof (lookup "propertyName" props) =? "string")) eqn:Hc;
        [reflexivity |].
      apply nonempty_string_check in Hc as (s & Hs & Hne). now destruct (Hne (Hnot s Hs)). }
    split; apply named_operation_stops; try assumption; now rewrite (Hcheck tt), Hbad.
Qed.

(** X9: under a valid index name and for a request whose [vectors] is an
    array, [insertVectors] and [upsertVectors] apply the same validation and
    differ only in the path.  When every vector is an object with a sequence
    as [values] and a non-empty string [id] the request is posted as it is
    to [indexes/{name}/insert] or [indexes/{name}/upsert]: no length is
    compared, so an empty array of vectors and vectors of different lengths
    are sent too.  Otherwise both reject with the error of validation and
    send nothing. *)
Theorem X9_insert_and_upsert_validate_alike (vectors : list JsValue) :
  lookup "vectors" props = JArr vectors ->
  let request := JObj props in
  (Forall (well_shaped None) vectors ->
   insertVectors StringToNumber describe context config (JStr name) request itemIndex
   = executeRequest StringToNumber describe context config
       ("indexes/" ++ name ++ "/insert") POST request itemIndex
   /\ upsertVectors StringToNumber describe context config (JStr name) request itemIndex
      = executeRequest StringToNumber describe context config
          ("indexes/" ++ name ++ "/upsert") POST request itemIndex)
  /\ (forall e,
        validateVectorDimensions (JArr vectors) None = inl e ->
        insertVectors StringToNumber describe context config (JStr name) request itemIndex
        = settle [] (inl e)
        /\ upsertVectors StringToNumber describe context config (JStr name) request itemIndex
           = settle [] (inl e)).
Proof.
  intros Hvectors request. subst request. unfold insertVectors, upsertVectors. split.
  - intro Hall. apply validate_each_accepts in Hall.
    split; apply named_operation_sends with (b := tt); try assumption;
      cbn [read bind ret]; now rewrite Hvectors.
  - intros e He.
    split; apply named_operation_stops; try assumption;
      cbn [read bind ret]; now rewrite Hvectors.
Qed.

End Gates.

(** X6 at two requests: two ids are looked up; an empty list is refused. *)
Lemma X6_id_lists_witness :
  getVectorsByIds not_consulted message_kept (mock (inr mutation_envelope)) example_config
    (JStr "docs-1") (JObj [("ids", JArr [JStr "v1"; JStr "v2"])]) 0
  = executeRequest not_consulted message_kept (mock (inr mutation_envelope)) example_config
      "indexes/docs-1/get_by_ids" POST (JObj [("ids", JArr [JStr "v1"; JStr "v2"])]) 0
  /\ deleteVectorsByIds not_consulted message_kept (mock (inr mutation_envelope)) example_config
       (JStr "docs-1") (JObj [("ids", JArr [])]) 0
     = settle [] (inl (Error "Vector IDs are required and must be a non-empty array")).
Proof.
  split.
  - apply (proj1 (X6_id_lists_must_be_non_empty not_consulted message_kept (mock (inr mutation_envelope))
                    example_config "docs-1" [("ids", JArr [JStr "v1"; JStr "v2"])] 0 eq_refl)).
    now exists (JStr "v1"), [JStr "v2"].
  - apply (proj2 (X6_id_lists_must_be_non_empty not_consulted message_kept (mock (inr mutation_envelope))
                    example_config "docs-1" [("ids", JArr [])] 0 eq_refl)).
    discriminate.
Defined.

(** X7 at two requests: an array is sent; a [Float32Array] is refused. *)
Lemma X7_query_vector_witness :
  queryVectors not_consulted message_kept (mock (inr mutation_envelope)) example_config
    (JStr "docs-1") (JObj [("vector", JArr [JNum 0.1; JNum 0.2]); ("topK", JNum 5)]) 0
  = executeRequest not_consulted message_kept (mock (inr mutation_envelope)) example_config
      "indexes/docs-1/query" POST
      (JObj [("vector", JArr [JNum 0.1; JNum 0.2]); ("topK", JNum 5)]) 0
  /\ queryVectors not_consulted message_kept (mock (inr mutation_envelope)) example_config
       (JStr "docs-1") (JObj [("vector", JFloat32Array [0.5%float; 0.25%float])]) 0
     = settle [] (inl (Error "Query vector is required and must be an array")).
Proof.
  split.
  - apply (proj1 (X7_query_vector_must_be_an_array not_consulted message_kept
                    (mock (inr mutation_envelope)) example_config "docs-1"
                    [("vector", JArr [JNum 0.1; JNum 0.2]); ("topK", JNum 5)] 0 eq_refl)).
    now eexists.
  - apply (proj2 (X7_query_vector_must_be_an_array not_consulted message_kept
                    (mock (inr mutation_envelope)) example_config "docs-1"
                    [("vector", JFloat32Array [0.5%float; 0.25%float])] 0 eq_refl)).
    discriminate.
Defined.

(** X8 at two requests: a property name with an unknown type is sent; a
    request without a property name is refused. *)
Lemma X8_property_name_witness :
  createMetadataIndex not_consulted message_kept (mock (inr mutation_envelope)) example_config
    (JStr "docs-1") (JObj [("propertyName", JStr "lang"); ("type", JStr "date")]) 0
  = executeRequest not_consulted message_kept (mock (inr mutation_envelope)) example_config
      "indexes/docs-1/metadata_index/create" POST
      (JObj [("propertyName", JStr "lang"); ("type", JStr "date")]) 0
  /\ deleteMetadataIndex not_consulted message_kept (mock (inr mutation_envelope)) example_config
       (JStr "docs-1") (JObj [("type", JStr "string")]) 0
     = settle [] (inl (Error "Property name is required and must be a string")).
Proof.
  split.
  - apply (proj1 (X8_property_name_is_required not_consulted message_kept
                    (mock (inr mutation_envelope)) example_config "docs-1"
                    [("propertyName", JStr "lang"); ("type", JStr "date")] 0 eq_refl)).
    exists "lang". split; [reflexivity | discriminate].
  - apply (proj2 (X8_property_name_is_required not_consulted message_kept
                    (mock (inr mutation_envelope)) example_config "docs-1"
                    [("type", JStr "string")] 0 eq_refl)).
    discriminate.
Defined.

(** X9 at two requests: vectors of lengths 2 and 3 are upserted together; a
    vector without an id stops the insert. *)
Lemma X9_insert_and_upsert_witness :
  upsertVectors not_consulted message_kept (mock (inr mutation_envelope)) example_config
    (JStr "docs-1")
    (JObj [("vectors", JArr [vector_v1 [JNum 0.1; JNum 0.2];
                             vector_v1 [JNum 1; JNum 2; JNum 3]])]) 0
  = executeRequest not_consulted message_kept (mock (inr mutation_envelope)) example_config
      "indexes/docs-1/upsert" POST
      (JObj [("vectors", JArr [vector_v1 [JNum 0.1; JNum 0.2];
                               vector_v1 [JNum 1; JNum 2; JNum 3]])]) 0
  /\ insertVectors not_consulted message_kept (mock (inr mutation_envelope)) example_config
       (JStr "docs-1") (JObj [("vectors", JArr [JObj [("values", JArr [JNum 1])]])]) 0
     = settle [] (inl (Error "All vectors must have a valid string ID")).
Proof.
  split.
  - apply (proj1 (X9_insert_and_upsert_validate_alike not_consulted message_kept
                    (mock (inr mutation_envelope)) example_config "docs-1"
                    [("vectors", JArr [vector_v1 [JNum 0.1; JNum 0.2];
                                       vector_v1 [JNum 1; JNum 2; JNum 3]])] 0 eq_refl
                    [vector_v1 [JNum 0.1; JNum 0.2]; vector_v1 [JNum 1; JNum 2; JNum 3]]
                    eq_refl)).
    repeat constructor; eexists _, "v1";
      (repeat split; try reflexivity; try discriminate).
  - apply (proj2 (X9_insert_and_upsert_validate_alike not_consulted message_kept
                    (mock (inr mutation_envelope)) example_config "docs-1"
                    [("vectors", JArr [JObj [("values", JArr [JNum 1])]])] 0 eq_refl
                    [JObj [("values", JArr [JNum 1])]] eq_refl)).
    reflexivity.
Defined.

(** X10: [createIndex] under a valid [name].  It rejects with "Dimensions
    must be a positive integer", and sends nothing, when the request has no
    [config], when [config.dimensions] is falsy (missing, [0], [NaN]), or when
    it is a number below 1.  Every other number is accepted, whole or not, and
    the request is then posted as it is to [indexes]: the metric and the
    description are not looked at, and the name is not part of the path. *)
Theorem X10_createIndex_dimensions
  (StringToNumber : string -> float) (describe : string -> string) (context : IExecuteFunctions)
  (config : VectorizeConnectionConfig) (props : list (string * JsValue)) (itemIndex : Z) :
  validateIndexName (lookup "name" props) = inr tt ->
  let run := createIndex StringToNumber describe context config (JObj props) itemIndex in
  let refused := settle [] (inl (Error "Dimensions must be a positive integer")) in
  (lookup "config" props = JUndefined -> run = refused)
  /\ forall index_config,
       lookup "config" props = JObj index_config ->
       (truthy (lookup "dimensions" index_config) = false -> run = refused)
       /\ forall dimensions,
            lookup "dimensions" index_config = JNum dimensions ->
            truthy (JNum dimensions) = true ->
            (PrimFloat.ltb dimensions 1 = true -> run = refused)
            /\ (PrimFloat.ltb dimensions 1 = false ->
                run = executeRequest StringToNumber describe context config "indexes" POST
                        (JObj props) itemIndex).
Proof.
  intros Hname run refused. subst run refused. unfold createIndex.
  cbn [read bind ret]. rewrite Hname, await_sync_ok. split.
  - intros ->. reflexivity.
  - intros index_config ->. cbn [read_optional read bind ret]. split.
    + intros ->. reflexivity.
    + intros dimensions -> Htruthy. rewrite Htruthy.
      unfold less_than_one. cbn [ToNumber bind ret negb].
      split; intros ->; cbn [bind ret]; [reflexivity | now rewrite await_sync_ok].
Qed.

(** X10 at four requests: 1536 and 1.5 dimensions are sent, 0.5 and a
    missing [config] are refused. *)
Lemma X10_createIndex_witness :
  let request dimensions :=
    [("name", JStr "docs-1");
     ("config", JObj [("dimensions", JNum dimensions); ("metric", JStr "cosine")])] in
  let refused := settle [] (inl (Error "Dimensions must be a positive integer")) in
  createIndex not_consulted message_kept (mock (inr mutation_envelope)) example_config
    (JObj (request 1536%float)) 0
  = executeRequest not_consulted message_kept (mock (inr mutation_envelope)) example_config
      "indexes" POST (JObj (request 1536%float)) 0
  /\ createIndex not_consulted message_kept (mock (inr mutation_envelope)) example_config
       (JObj (request 1.5%float)) 0
     = executeRequest not_consulted message_kept (mock (inr mutation_envelope)) example_config
         "indexes" POST (JObj (request 1.5%float)) 0
  /\ createIndex not_consulted message_kept (mock (inr mutation_envelope)) example_config
       (JObj (request 0.5%float)) 0 = refused
  /\ createIndex not_consulted message_kept (mock (inr mutation_envelope)) example_config
       (JObj [("name", JStr "docs-1")]) 0 = refused.
Proof.
  intros request refused. split; [| split; [| split]].
  - destruct (proj2 (X10_createIndex_dimensions not_consulted message_kept (mock (inr mutation_envelope))
                example_config (request 1536%float) 0 eq_refl) _ eq_refl) as [_ Hnumber].
    destruct (Hnumber 1536%float eq_refl eq_refl) as [_ Hsent]. now apply Hsent.
  - destruct (proj2 (X10_createIndex_dimensions not_consulted message_kept (mock (inr mutation_envelope))
                example_config (request 1.5%float) 0 eq_refl) _ eq_refl) as [_ Hnumber].
    destruct (Hnumber 1.5%float eq_refl eq_refl) as [_ Hsent]. now apply Hsent.
  - destruct (proj2 (X10_createIndex_dimensions not_consulted message_kept (mock (inr mutation_envelope))
                example_config (request 0.5%float) 0 eq_refl) _ eq_refl) as [_ Hnumber].
    destruct (Hnumber 0.5%float eq_refl eq_refl) as [Hrefused _]. now apply Hrefused.
  - apply (proj1 (X10_createIndex_dimensions not_consulted message_kept (mock (inr mutation_envelope))
                    example_config [("name", JStr "docs-1")] 0 eq_refl)).
    reflexivity.
Defined.

(** ** Operations that reshape the result *)

Lemma executeRequest_result StringToNumber describe context config endpoint method body itemIndex v :
  outcome (executeRequest StringToNumber describe context config endpoint method body itemIndex)
  = inr v ->
  not_nullish v.
Proof.
  unfold executeRequest. cbn [outcome]. intro H.
  destruct (httpRequestWithAuthentication context "cloudflareVectorizeApi"
              (http_options config endpoint method body)) as [thrown | response];
    cbn [bind] in H.
  - destruct (handle_failure_rejects StringToNumber describe (getNode context) itemIndex thrown)
      as (e & He).
    rewrite He in H. discriminate.
  - destruct (read_response describe (getNode context) itemIndex response) as [e | v'] eqn:Hread.
    + destruct (handle_failure_rejects StringToNumber describe (getNode context) itemIndex e)
        as (e' & He').
      rewrite He' in H. discriminate.
    + injection H as <-. now apply (proj1 (read_response_kinds _ _ _ _) _ Hread).
Qed.

Lemma not_nullish_readable v key : not_nullish v -> exists x, read v key = inr x.
Proof.
  intros [Hundefined Hnull]. destruct v; try contradiction; simpl; now eexists.
Qed.

(** X12: [listIndexes] sends the one GET to [indexes] and adds no failure
    of its own: it rejects exactly when that request does, with the same
    error, and otherwise returns the [indexes] field of the result when that
    field is truthy and the result itself when it is not (a service that
    answers with the bare list). *)
Theorem X12_listIndexes_unwraps
  (StringToNumber : string -> float) (describe : string -> string) (context : IExecuteFunctions)
  (config : VectorizeConnectionConfig) (itemIndex : Z) :
  let sent := executeRequest StringToNumber describe context config "indexes" GET JUndefined itemIndex in
  let run := listIndexes StringToNumber describe context config itemIndex in
  requests run = [http_options config "indexes" GET JUndefined]
  /\ (forall e, outcome sent = inl e -> outcome run = inl e)
  /\ (forall result,
        outcome sent = inr result ->
        exists indexes,
          read result "indexes" = inr indexes
          /\ outcome run = inr (if truthy indexes then indexes else result)).
Proof.
  intros sent run. subst run. unfold listIndexes. fold sent.
  split; [| split].
  - rewrite requests_await_request. reflexivity.
  - intros e He. unfold await. now rewrite He.
  - intros result Hresult.
    destruct (not_nullish_readable result "indexes"
                (executeRequest_result _ _ _ _ _ _ _ _ _ Hresult)) as (indexes & Hindexes).
    exists indexes. split; [assumption |].
    unfold await. rewrite Hresult. cbn [outcome sync]. now rewrite Hindexes.
Qed.

(** X13: under a valid index name, [deleteIndex] sends one DELETE to
    [indexes/{name}] without a body and discards what the service returns:
    it resolves to [undefined] whenever the request succeeds, and rejects
    with the error of the request when it fails. *)
Theorem X13_deleteIndex_discards_result
  (StringToNumber : string -> float) (describe : string -> string) (context : IExecuteFunctions)
  (config : VectorizeConnectionConfig) (name : string) (itemIndex : Z) :
  validateIndexName (JStr name) = inr tt ->
  let sent := executeRequest StringToNumber describe context config ("indexes/" ++ name)
                DELETE JUndefined itemIndex in
  let run := deleteIndex StringToNumber describe context config (JStr name) itemIndex in
  requests run = [http_options config ("indexes/" ++ name) DELETE JUndefined]
  /\ (forall e, outcome sent = inl e -> outcome run = inl e)
  /\ (forall result, outcome sent = inr result -> outcome run = inr JUndefined).
Proof.
  intros Hname sent run. subst run. unfold deleteIndex.
  rewrite Hname, await_sync_ok, index_endpoint_string, await_sync_ok, append_empty_r.
  fold sent. split; [| split].
  - rewrite (requests_await_request sent (fun _ => ret JUndefined)). reflexivity.
  - intros e He. unfold await. now rewrite He.
  - intros result Hresult. unfold await. now rewrite Hresult.
Qed.

(** X13 at an envelope with a result: the result is dropped. *)
Lemma X13_deleteIndex_witness :
  requests (deleteIndex not_consulted message_kept (mock (inr mutation_envelope)) example_config
              (JStr "docs-1") 0)
  = [http_options example_config "indexes/docs-1" DELETE JUndefined]
  /\ outcome (deleteIndex not_consulted message_kept (mock (inr mutation_envelope)) example_config
                (JStr "docs-1") 0)
     = inr JUndefined.
Proof.
  destruct (X13_deleteIndex_discards_result not_consulted message_kept (mock (inr mutation_envelope))
              example_config "docs-1" 0 eq_refl) as (Hrequests & _ & Hresult).
  split; [exact Hrequests |].
  apply (Hresult (JObj [("mutationId", JStr "m1")])). reflexivity.
Defined.

(** ** The query string of [listVectors] *)

Lemma list_ascii_append (a b : string) :
  list_ascii_of_string (a ++ b) = (list_ascii_of_string a ++ list_ascii_of_string b)%list.
Proof. induction a as [|c a IH]; simpl; [reflexivity | now rewrite IH]. Qed.

Lemma substring_chars (P : ascii -> Prop) s :
  Forall P (list_ascii_of_string s) ->
  forall n m, Forall P (list_ascii_of_string (substring n m s)).
Proof.
  induction s as [|c s IH]; intros Hs n m.
  - destruct n, m; simpl; constructor.
  - inversion Hs as [|? ? Hc Hrest]; subst.
    destruct n as [|n]; [destruct m as [|m] |]; simpl.
    + constructor.
    + constructor; [assumption | now apply IH].
    + now apply IH.
Qed.

Lemma percent_byte_safe byte :
  Forall url_safe (list_ascii_of_string (percent_byte byte)).
Proof.
  assert (Hdigits : Forall url_safe (list_ascii_of_string "0123456789ABCDEF")).
  { repeat constructor. }
  unfold percent_byte, hex_digit. rewrite !list_ascii_append.
  apply Forall_app. split.
  - simpl. constructor; [| constructor]. right. now right.
  - apply Forall_app. split; now apply substring_chars.
Qed.

Lemma form_encode_unit_safe c :
  Forall url_safe (list_ascii_of_string (form_encode_unit c)).
Proof.
  unfold form_encode_unit.
  destruct (Ascii.eqb c " ");
    [simpl; constructor; [right; now left | constructor] |].
  destruct (form_safe c) eqn:Hc;
    [simpl; constructor; [now left | constructor] |].
  destruct (nat_of_ascii c <? 128)%nat; [apply percent_byte_safe |].
  rewrite list_ascii_append. apply Forall_app. split; apply percent_byte_safe.
Qed.

Lemma concat_chars (P : ascii -> Prop) parts :
  Forall (fun part => Forall P (list_ascii_of_string part)) parts ->
  Forall P (list_ascii_of_string (String.concat "" parts)).
Proof.
  induction 1 as [|part parts Hpart Hparts IH]; simpl; [constructor |].
  destruct parts as [|next parts]; [assumption |].
  rewrite list_ascii_append. apply Forall_app. split; assumption.
Qed.

Lemma form_encode_safe s : Forall url_safe (list_ascii_of_string (form_encode s)).
Proof.
  unfold form_encode. apply concat_chars. apply Forall_forall.
  intros part Hpart. apply in_map_iff in Hpart as (c & <- & _).
  apply form_encode_unit_safe.
Qed.

Lemma form_encode_names : form_encode "cursor" = "cursor" /\ form_encode "limit" = "limit".
Proof. split; reflexivity. Qed.

(** The end of the path of [listVectors], by the parameters that are set. *)
Lemma list_suffix params :
  "/list" ++ (if negb (search_params_text params =? "")
              then "?" ++ search_params_text params else "")
  = match params with
    | [] => "/list"
    | [(key, value)] => "/list?" ++ form_encode key ++ "=" ++ form_encode value
    | (key1, value1) :: (key2, value2) :: [] =>
        "/list?" ++ form_encode key1 ++ "=" ++ form_encode value1
        ++ "&" ++ form_encode key2 ++ "=" ++ form_encode value2
    | _ => "/list" ++ (if negb (search_params_text params =? "")
                       then "?" ++ search_params_text params else "")
    end.
Proof.
  destruct params as [|[key1 value1] [|[key2 value2] [|third rest]]]; try reflexivity.
  - unfold search_params_text. cbn [map fst snd String.concat].
    destruct (form_encode key1 ++ "=" ++ form_encode value1) eqn:Hquery; [| reflexivity].
    destruct (form_encode key1); discriminate.
  - unfold search_params_text. cbn [map fst snd String.concat].
    rewrite !append_assoc.
    destruct (form_encode key1 ++ "=" ++ form_encode value1 ++ "&"
              ++ form_encode key2 ++ "=" ++ form_encode value2) eqn:Hquery; [| reflexivity].
    destruct (form_encode key1); discriminate.
Qed.

(** X11: under a valid index name [listVectors] always sends its GET, and
    the path is [indexes/{name}/list] followed by a query string made of the
    truthy parameters only.  A missing or empty [cursor] and a missing or zero
    [limit] add nothing, and with neither there is no question mark.  The
    cursor is written form-urlencoded: besides letters, digits and [*-._] it
    only ever contributes [+] and [%], so it cannot add a parameter of its
    own. *)
Theorem X11_listVectors_query
  (StringToNumber : string -> float) (describe : string -> string) (context : IExecuteFunctions)
  (config : VectorizeConnectionConfig) (name : string)
  (props : list (string * JsValue)) (cursor : string) (itemIndex : Z) :
  validateIndexName (JStr name) = inr tt ->
  lookup "cursor" props = JStr cursor \/ (lookup "cursor" props = JUndefined /\ cursor = "") ->
  let run := listVectors StringToNumber describe context config (JStr name) (JObj props) itemIndex in
  let sends query :=
    run = executeRequest StringToNumber describe context config
            ("indexes/" ++ name ++ "/list" ++ query) GET JUndefined itemIndex in
  (truthy (lookup "limit" props) = false ->
   sends (if cursor =? "" then "" else "?cursor=" ++ form_encode cursor))
  /\ (forall limit,
        lookup "limit" props = JNum limit -> truthy (JNum limit) = true ->
        sends (if cursor =? "" then "?limit=" ++ form_encode (NumberToString limit)
               else "?cursor=" ++ form_encode cursor
                    ++ "&limit=" ++ form_encode (NumberToString limit)))
  /\ Forall url_safe (list_ascii_of_string (form_encode cursor))
  /\ listVectors StringToNumber describe context config (JStr name) JUndefined itemIndex
     = executeRequest StringToNumber describe context config
         ("indexes/" ++ name ++ "/list") GET JUndefined itemIndex.
Proof.
  intros Hname Hcursor run sends. subst sends run. unfold listVectors. cbv zeta.
  rewrite Hname, !await_sync_ok. cbn [read bind ret].
  destruct form_encode_names as [Hcursor_name Hlimit_name].
  assert (Hparams :
            (if truthy (lookup "cursor" props)
             then cursor_text <- ToString (lookup "cursor" props) ;;
                  ret [("cursor", cursor_text)]
             else ret [])
            = inr (if cursor =? "" then [] else [("cursor", cursor)])).
  { destruct Hcursor as [-> | [-> ->]]; [| reflexivity].
    cbn [truthy ToString bind ret]. now destruct (cursor =? ""). }
  rewrite Hparams. cbn [bind].
  split; [| split; [| split]].
  - intros ->. cbn [bind]. unfold ret.
    rewrite await_sync_ok, list_suffix, index_endpoint_string, await_sync_ok.
    destruct (cursor =? ""); [reflexivity |]. now rewrite Hcursor_name.
  - intros limit -> ->. cbn [call_toString ToString]. unfold ret. cbn [bind].
    rewrite await_sync_ok, list_suffix, index_endpoint_string, await_sync_ok.
    destruct (cursor =? ""); cbn [app]; rewrite ?Hcursor_name, Hlimit_name; reflexivity.
  - apply form_encode_safe.
  - cbn [read bind truthy lookup]. unfold ret. cbn [bind].
    rewrite !await_sync_ok, (list_suffix []), index_endpoint_string, await_sync_ok.
    reflexivity.
Qed.

(** X11 at a cursor that tries to add a parameter, with limit 10. *)
Lemma X11_listVectors_witness :
  listVectors not_consulted message_kept (mock (inr mutation_envelope)) example_config (JStr "docs-1")
    (JObj [("limit", JNum 10); ("cursor", JStr "a b&limit=9")]) 0
  = executeRequest not_consulted message_kept (mock (inr mutation_envelope)) example_config
      "indexes/docs-1/list?cursor=a+b%26limit%3D9&limit=10" GET JUndefined 0.
Proof.
  apply (proj1 (proj2 (X11_listVectors_query not_consulted message_kept (mock (inr mutation_envelope))
                         example_config "docs-1"
                         [("limit", JNum 10); ("cursor", JStr "a b&limit=9")]
                         "a b&limit=9" 0 eq_refl (or_introl eq_refl)))
           10%float eq_refl eq_refl).
Defined.

(** ** Formatting, then validating *)

Lemma format_vector_shape vector index formatted :
  format_vector vector index = inr formatted ->
  exists id values metadata namespace,
    formatted = formatted_vector id values metadata namespace
    /\ is_sequence values = true
    /\ (forall m, metadata = Some m -> truthy m = true).
Proof.
  intro H.
  destruct vector as [| | | | |elems|elems|elems|props];
    try (unfold format_vector in H; simpl in H; discriminate).
  rewrite format_vector_object in H.
  destruct (negb (truthy (lookup "id" props))); [discriminate |].
  destruct (is_sequence (lookup "values" props)) eqn:Hseq; [| discriminate].
  cbn [negb] in H.
  destruct (ToString (lookup "id" props)) as [e | id]; [discriminate |].
  cbn [bind] in H. cbv zeta in H.
  destruct (truthy (lookup "metadata" props)) eqn:Hmeta;
    destruct (truthy (lookup "namespace" props)).
  - destruct (ToString (lookup "namespace" props)) as [e | namespace]; [discriminate |].
    injection H as <-.
    exists id, (lookup "values" props), (Some (lookup "metadata" props)), (Some namespace).
    repeat split; [assumption |]. now intros m [= <-].
  - injection H as <-.
    exists id, (lookup "values" props), (Some (lookup "metadata" props)), None.
    repeat split; [assumption |]. now intros m [= <-].
  - destruct (ToString (lookup "namespace" props)) as [e | namespace]; [discriminate |].
    injection H as <-.
    exists id, (lookup "values" props), None, (Some namespace).
    repeat split; [assumption | discriminate].
  - injection H as <-.
    exists id, (lookup "values" props), None, None.
    repeat split; [assumption | discriminate].
Qed.

Lemma mapM_indexed_each {A B : Type} (f : A -> nat -> Result B) (P : B -> Prop) l :
  (forall a index b, f a index = inr b -> P b) ->
  forall index out, mapM_indexed f index l = inr out -> Forall P out.
Proof.
  intro Hf. induction l as [|a l IH]; intros index out H; simpl in H.
  - injection H as <-. constructor.
  - destruct (f a index) as [e | b] eqn:Hb; [discriminate |]. cbn [bind] in H.
    destruct (mapM_indexed f (S index) l) as [e | bs] eqn:Hbs; [discriminate |].
    injection H as <-. constructor; [now apply (Hf a index) | now apply (IH (S index))].
Qed.

Lemma validate_formatted id values metadata namespace :
  is_sequence values = true ->
  validate_vector None (formatted_vector id values metadata namespace)
  = if id =? "" then inl (Error "All vectors must have a valid string ID") else inr tt.
Proof.
  intro Hseq. unfold formatted_vector. rewrite validate_vector_object.
  cbn [app lookup String.eqb Ascii.eqb Bool.eqb]. cbv zeta. rewrite Hseq.
  cbn [dimension_mismatch truthy typeof negb String.eqb Ascii.eqb Bool.eqb orb].
  now destruct (id =? "").
Qed.

(** X14: what [formatVectors] returns is what [insertVectors] and
    [upsertVectors] validate next, and it passes unless an [id] was coerced to
    the empty string (the [id] [[]], say): validation of the formatted vectors
    without an expected dimensionality succeeds exactly when no formatted
    [id] is empty, and otherwise fails with "All vectors must have a valid
    string ID". *)
Theorem X14_formatted_vectors_validate
  (vectors formatted : list JsValue) :
  formatVectors vectors = inr formatted ->
  (validateVectorDimensions (JArr formatted) None = inr tt
   <-> Forall (fun vector => lookup "id" (spread vector) <> JStr "") formatted)
  /\ (validateVectorDimensions (JArr formatted) None = inr tt
      \/ validateVectorDimensions (JArr formatted) None
         = inl (Error "All vectors must have a valid string ID")).
Proof.
  intro Hformat.
  assert (Hshape : Forall (fun vector =>
            exists id values metadata namespace,
              vector = formatted_vector id values metadata namespace
              /\ is_sequence values = true
              /\ (forall m, metadata = Some m -> truthy m = true)) formatted).
  { apply (mapM_indexed_each format_vector _ vectors format_vector_shape 0 _ Hformat). }
  clear Hformat. unfold validateVectorDimensions. cbn [iterate bind ret].
  induction Hshape as [|vector rest (id & values & metadata & namespace & -> & Hseq & _) _ IH].
  - split; [split; [constructor | reflexivity] | now left].
  - cbn [validate_each]. rewrite (validate_formatted _ _ _ _ Hseq).
    destruct (String.eqb_spec id "") as [-> | Hid]; cbn [bind].
    + split; [| now right]. split; [discriminate |].
      intro Hall. inversion Hall as [|? ? Hhead _]; subst. now destruct Hhead.
    + destruct IH as [IHiff IHor]. split; [| exact IHor]. split.
      * intro H. constructor; [| now apply IHiff].
        cbn. intros [= Hempty]. now destruct Hid.
      * intro Hall. inversion Hall; subst. now apply IHiff.
Qed.

(** X14 at a vector whose id is an empty array: formatted, then refused. *)
Lemma X14_formatted_vectors_witness :
  formatVectors [JObj [("id", JArr []); ("values", JArr [JNum 1])]]
  = inr [JObj [("id", JStr ""); ("values", JArr [JNum 1])]]
  /\ validateVectorDimensions (JArr [JObj [("id", JStr ""); ("values", JArr [JNum 1])]]) None
     = inl (Error "All vectors must have a valid string ID").
Proof.
  split; [reflexivity |].
  destruct (X14_formatted_vectors_validate
              [JObj [("id", JArr []); ("values", JArr [JNum 1])]]
              [JObj [("id", JStr ""); ("values", JArr [JNum 1])]] eq_refl)
    as [_ [Hok | Hrefused]]; [discriminate Hok | exact Hrefused].
Defined.

Lemma format_formatted id values metadata namespace index :
  is_sequence values = true ->
  (forall m, metadata = Some m -> truthy m = true) ->
  id <> "" -> namespace <> Some "" ->
  format_vector (formatted_vector id values metadata namespace) index
  = inr (formatted_vector id values metadata namespace).
Proof.
  intros Hseq Hmeta Hid Hnamespace.
  unfold formatted_vector. rewrite format_vector_object.
  apply String.eqb_neq in Hid.
  destruct metadata as [m |], namespace as [n |];
    cbn [app lookup String.eqb Ascii.eqb Bool.eqb truthy negb ToString bind ret];
    rewrite Hid, Hseq; cbn [negb bind ret assign String.eqb Ascii.eqb Bool.eqb app];
    try rewrite (Hmeta m eq_refl);
    cbn [assign String.eqb Ascii.eqb Bool.eqb];
    try (assert (Hn : (n =? "") = false)
           by (apply String.eqb_neq; intros ->; now destruct Hnamespace);
         rewrite Hn);
    reflexivity.
Qed.

(** X15: formatting formatted vectors changes nothing.  If [formatVectors]
    returned vectors in which no [id] and no [namespace] is the empty string,
    [formatVectors] returns them again, as they are. *)
Theorem X15_formatVectors_idempotent (vectors formatted : list JsValue) :
  formatVectors vectors = inr formatted ->
  Forall (fun vector =>
            lookup "id" (spread vector) <> JStr ""
            /\ lookup "namespace" (spread vector) <> JStr "") formatted ->
  formatVectors formatted = inr formatted.
Proof.
  intros Hformat Hnonempty.
  pose proof (mapM_indexed_each format_vector _ vectors format_vector_shape 0 _ Hformat)
    as Hshape.
  unfold formatVectors.
  rewrite (mapM_indexed_map format_vector (fun v => v)); [now rewrite map_id |].
  clear Hformat. induction Hshape as [|vector rest Hv _ IH]; [constructor |].
  inversion Hnonempty as [|? ? [Hid Hnamespace] Hrest]; subst.
  constructor; [| now apply IH].
  destruct Hv as (id & values & metadata & namespace & -> & Hseq & Hmeta).
  intro index. apply format_formatted; try assumption.
  - intros ->. now destruct Hid.
  - intros ->. apply Hnamespace. unfold formatted_vector.
    destruct metadata; reflexivity.
Qed.

(** X15 at the result of formatting two raw vectors. *)
Lemma X15_idempotent_witness :
  formatVectors
    [JObj [("id", JStr "a"); ("values", JArr [JNum 1]); ("metadata", JObj [("k", JNum 2)])];
     JObj [("id", JNum 7); ("values", JArr []); ("namespace", JStr "docs")]]
  = inr [JObj [("id", JStr "a"); ("values", JArr [JNum 1]); ("metadata", JObj [("k", JNum 2)])];
         JObj [("id", JStr "7"); ("values", JArr []); ("namespace", JStr "docs")]]
  /\ formatVectors
       [JObj [("id", JStr "a"); ("values", JArr [JNum 1]); ("metadata", JObj [("k", JNum 2)])];
        JObj [("id", JStr "7"); ("values", JArr []); ("namespace", JStr "docs")]]
     = inr [JObj [("id", JStr "a"); ("values", JArr [JNum 1]); ("metadata", JObj [("k", JNum 2)])];
            JObj [("id", JStr "7"); ("values", JArr []); ("namespace", JStr "docs")]].
Proof.
  split; [vm_compute; reflexivity |].
  apply (X15_formatVectors_idempotent
           [JObj [("id", JStr "a"); ("values", JArr [JNum 1]); ("metadata", JObj [("k", JNum 2)])];
            JObj [("id", JNum 7); ("values", JArr []); ("namespace", JStr "docs")]]).
  - vm_compute. reflexivity.
  - repeat constructor; discriminate.
Defined.

(** ** The sizes of the batches *)

Lemma batch_loop_sizes {A : Type} (vectors : list A) (batchSize : Z) :
  (1 <= batchSize)%Z ->
  forall (m : nat) c done,
    (0 <= c)%Z -> (Z.of_nat (length vectors) - c <= Z.of_nat m)%Z ->
    exists chunks,
      (forall fuel, m < fuel ->
         batch_loop fuel vectors batchSize {| counter := c; batches := done |}
         = Some (done ++ chunks)%list)
      /\ full_but_last batchSize chunks
      /\ (chunks = [] <-> (Z.of_nat (length vectors) <= c)%Z).
Proof.
  intros Hn m. induction m as [|m IH]; intros c done Hc Hm.
  - exists []. repeat split; try lia.
    intros [|fuel] Hfuel; [lia |]. simpl. unfold batch_continues. simpl.
    destruct (Z.ltb_spec c (Z.of_nat (length vectors))); [lia |].
    now rewrite app_nil_r.
  - destruct (Z_lt_le_dec c (Z.of_nat (length vectors))) as [Hlt | Hge].
    + set (chunk := slice vectors c (c + batchSize)).
      destruct (IH (c + batchSize)%Z (done ++ [chunk])%list)
        as (chunks & Hrun & Hfull & Hempty); [lia | lia |].
      assert (Hchunk : Z.of_nat (length chunk)
                       = Z.min batchSize (Z.of_nat (length vectors) - c)).
      { unfold chunk. rewrite slice_forward by lia.
        rewrite length_firstn, length_skipn. lia. }
      exists (chunk :: chunks). repeat split.
      * intros [|fuel] Hfuel; [lia |]. simpl. unfold batch_continues. simpl.
        destruct (Z.ltb_spec c (Z.of_nat (length vectors))); [| lia].
        unfold batch_step. simpl. fold chunk.
        rewrite Hrun by lia. now rewrite <- app_assoc.
      * destruct chunks as [|next rest].
        -- pose proof (proj1 Hempty eq_refl). simpl. lia.
        -- change (Z.of_nat (length chunk) = batchSize
                   /\ full_but_last batchSize (next :: rest)).
           split; [| assumption].
           destruct (Z_le_gt_dec (Z.of_nat (length vectors)) (c + batchSize)) as [Hlast |];
             [| lia].
           now pose proof (proj2 Hempty Hlast).
      * discriminate.
      * lia.
    + exists []. repeat split; try lia.
      intros [|fuel] Hfuel; [lia |]. simpl. unfold batch_continues. simpl.
      destruct (Z.ltb_spec c (Z.of_nat (length vectors))); [lia |].
      now rewrite app_nil_r.
Qed.

(** X16: with a batch size of at least 1, [batchVectors] returns batches of
    which every one but the last holds exactly [batchSize] vectors and the last
    holds between 1 and [batchSize]; there is no batch at all exactly when there
    is no vector. *)
Theorem X16_batchVectors_sizes {A : Type} (vectors : list A) (batchSize : Z) :
  (1 <= batchSize)%Z ->
  exists chunks,
    (forall fuel, length vectors < fuel ->
       batchVectors fuel vectors (Some batchSize) = Some chunks)
    /\ full_but_last batchSize chunks
    /\ (chunks = [] <-> vectors = []).
Proof.
  intro Hn.
  destruct (batch_loop_sizes vectors batchSize Hn (length vectors) 0%Z [])
    as (chunks & Hrun & Hfull & Hempty); [lia | lia |].
  exists chunks. repeat split; try assumption.
  - intro H. apply Hempty in H. destruct vectors; [reflexivity | simpl in H; lia].
  - intros ->. now apply Hempty.
Qed.

(** X16 at five vectors and batch size 2. *)
Lemma X16_sizes_witness :
  exists chunks,
    (forall fuel, length [1; 2; 3; 4; 5] < fuel ->
       batchVectors fuel [1; 2; 3; 4; 5] (Some 2%Z) = Some chunks)
    /\ full_but_last 2 chunks
    /\ (chunks = [] <-> [1; 2; 3; 4; 5] = []).
Proof. apply (X16_batchVectors_sizes [1; 2; 3; 4; 5] 2%Z). lia. Defined.

(** ** Querying by id *)

Section QueryById.
Variable StringToNumber : string -> float.
Variable describe : string -> string.
Variable context : IExecuteFunctions.
Variable config : VectorizeConnectionConfig.
Variable name : string.
Variable props : list (string * JsValue).
Variable itemIndex : Z.
Hypothesis Hname : validateIndexName (JStr name) = inr tt.

(** X17: under a valid index name, [queryVectorById] rejects with "Vector ID
    is required and must be a string", and sends nothing, whenever the [id] of
    the request is not a non-empty string; and when it is, the body it posts to
    [indexes/{name}/query], where [vector] is the id, is one that
    [queryVectors], which posts to the same route, refuses. *)
Theorem X17_queryVectorById_gate :
  ((forall id, lookup "id" props = JStr id -> id = "") ->
   queryVectorById StringToNumber describe context config (JStr name) (JObj props) itemIndex
   = settle [] (inl (Error "Vector ID is required and must be a string")))
  /\ (forall id, lookup "id" props = JStr id -> id <> "" ->
      let body := JObj (assign "vector" (JStr id) props) in
      queryVectorById StringToNumber describe context config (JStr name) (JObj props) itemIndex
      = executeRequest StringToNumber describe context config
          ("indexes/" ++ name ++ "/query") POST body itemIndex
      /\ queryVectors StringToNumber describe context config (JStr name) body itemIndex
         = settle [] (inl (Error "Query vector is required and must be an array"))).
Proof.
  split.
  - intro Hid. unfold queryVectorById. rewrite Hname, await_sync_ok.
    cbn [read bind ret].
    destruct (lookup "id" props) as [| |b|x|id|elems|elems|elems|fields] eqn:Hlookup;
      try (cbn; rewrite ?orb_true_r; reflexivity).
    now rewrite (Hid id eq_refl).
  - intros id Hlookup Hid body. subst body. split.
    + unfold queryVectorById. rewrite Hname, await_sync_ok.
      cbn [read bind ret]. rewrite Hlookup.
      apply String.eqb_neq in Hid. cbn [truthy typeof]. rewrite Hid.
      cbn [negb orb String.eqb Ascii.eqb Bool.eqb]. rewrite await_sync_ok.
      now rewrite index_endpoint_string, await_sync_ok.
    + unfold queryVectors. apply named_operation_stops; [assumption |].
      cbn [read bind ret]. rewrite lookup_assign_same.
      cbn. now rewrite ?orb_true_r.
Qed.

End QueryById.

(** X17 at a request with an id and at a request whose id is a number. *)
Lemma X17_queryVectorById_witness :
  queryVectorById not_consulted message_kept (mock (inr mutation_envelope)) example_config
    (JStr "docs-1") (JObj [("id", JNum 7)]) 0
  = settle [] (inl (Error "Vector ID is required and must be a string"))
  /\ queryVectors not_consulted message_kept (mock (inr mutation_envelope)) example_config
       (JStr "docs-1") (JObj [("id", JStr "v1"); ("vector", JStr "v1")]) 0
     = settle [] (inl (Error "Query vector is required and must be an array")).
Proof.
  split.
  - apply (proj1 (X17_queryVectorById_gate not_consulted message_kept
                    (mock (inr mutation_envelope)) example_config "docs-1"
                    [("id", JNum 7)] 0 eq_refl)).
    discriminate.
  - apply (proj2 (X17_queryVectorById_gate not_consulted message_kept
                    (mock (inr mutation_envelope)) example_config "docs-1"
                    [("id", JStr "v1")] 0 eq_refl) "v1" eq_refl).
    discriminate.
Defined.
